(** * CashAddr address codec of bcccore-lib ([lib/address.js])

    A shallow embedding of the address classifier and of the CashAddr text
    codec, with the checksum engine ([polymod]) translated from the source.

    Conventions.
    - JavaScript numbers that the code uses as small integers, and [BN]
      big numbers, are [Z]; the bit operations are [Z.land], [Z.lxor],
      [Z.shiftl] and [Z.shiftr].
    - A [Buffer] or an array of numbers is a [list Z] where only its
      bytes matter. Where it matters that a Buffer is held by reference
      (the methods of an address object, and the Buffer that the
      constructor keeps), a [Buffer] is a view of a block of a [Memory].
    - A JavaScript string is a [string]; the model covers ASCII text, on
      which [toLowerCase], [toUpperCase] and [trim] are the functions
      below.
    - A function that can throw returns a [result]: [OK v] or [Throw e],
      where [e] records the class of the exception and its message. *)

From Stdlib Require Import ZArith List String Ascii Bool Lia.
From Stdlib Require Import DecimalString.
Import ListNotations.

Local Open Scope string_scope.
Local Open Scope list_scope.
Local Open Scope Z_scope.

(** ** Exceptions and the error monad *)

Inductive exn : Type :=
| InvalidArgument (message : string)   (* [$.checkArgument], with its message *)
| InvalidState (message : string)      (* [$.checkState], with its message *)
| TypeError (message : string)         (* [new TypeError(message)] *)
| Error (message : string)             (* [new Error(message)] *)
| CantDeriveAddress                    (* [errors.Script.CantDeriveAddress] *)
| InvalidCharacter (c : ascii)         (* Base-32 codec, see below *)
| InvalidSymbol (v : Z)                (* Base-32 codec, see below *)
| NonZeroPadding.                      (* bit regrouping, see below *)

Inductive result (A : Type) : Type :=
| OK (value : A)
| Throw (e : exn).

Arguments OK {A} value.
Arguments Throw {A} e.

Definition bind {A B : Type} (r : result A) (k : A -> result B) : result B :=
  match r with
  | OK v => k v
  | Throw e => Throw e
  end.

Notation "'let*' x ':=' r 'in' k" := (bind r (fun x => k))
  (at level 10, x pattern, r at level 100, k at level 200).

(** [$.checkArgument(condition, message)] *)
Definition checkArgument (condition : bool) (message : string) : result unit :=
  if condition then OK tt else Throw (InvalidArgument message).

(** ** JavaScript strings *)

Module JS.

Definition is_upper (c : ascii) : bool :=
  let n := nat_of_ascii c in (65 <=? n)%nat && (n <=? 90)%nat.

Definition is_lower (c : ascii) : bool :=
  let n := nat_of_ascii c in (97 <=? n)%nat && (n <=? 122)%nat.

Definition lower_char (c : ascii) : ascii :=
  if is_upper c then ascii_of_nat (nat_of_ascii c + 32) else c.

Definition upper_char (c : ascii) : ascii :=
  if is_lower c then ascii_of_nat (nat_of_ascii c - 32) else c.

Fixpoint map_string (f : ascii -> ascii) (s : string) : string :=
  match s with
  | EmptyString => EmptyString
  | String c s' => String (f c) (map_string f s')
  end.

Definition toLowerCase (s : string) : string := map_string lower_char s.
Definition toUpperCase (s : string) : string := map_string upper_char s.

(** [s.charCodeAt(i)] for every [i], in order. *)
Fixpoint charCodes (s : string) : list Z :=
  match s with
  | EmptyString => []
  | String c s' => Z.of_nat (nat_of_ascii c) :: charCodes s'
  end.

(** [s.split(':')]: the pieces between the colons; [cur] is the piece
    being read. *)
Fixpoint split_from (cur : string) (s : string) : list string :=
  match s with
  | EmptyString => [cur]
  | String c s' =>
      if Ascii.eqb c ":"%char then cur :: split_from EmptyString s'
      else split_from (cur ++ String c EmptyString)%string s'
  end.

Definition split_colon (s : string) : list string := split_from EmptyString s.

(** White space removed by [trim], within ASCII: tab, line feed, vertical
    tab, form feed, carriage return and space. *)
Definition is_space (c : ascii) : bool :=
  let n := nat_of_ascii c in
  ((9 <=? n)%nat && (n <=? 13)%nat) || (n =? 32)%nat.

Fixpoint trimStart (s : string) : string :=
  match s with
  | EmptyString => EmptyString
  | String c s' => if is_space c then trimStart s' else s
  end.

Fixpoint trimEnd (s : string) : string :=
  match s with
  | EmptyString => EmptyString
  | String c s' =>
      match trimEnd s' with
      | EmptyString => if is_space c then EmptyString else String c EmptyString
      | t => String c t
      end
  end.

Definition trim (s : string) : string := trimEnd (trimStart s).

(** Truthiness of a string: only the empty string is falsy. *)
Definition truthy (s : string) : bool :=
  match s with EmptyString => false | _ => true end.

End JS.

(** ** The checksum engine *)

(** [protocolToArray]: the low five bits of every character code. *)
Definition protocolToArray (protocol : string) : list Z :=
  map (fun code => Z.land code 31) (JS.charCodes protocol).

Definition GENERATOR : list Z :=
  [0x98f2bc8e61; 0x79b76d99e2; 0xf33e5fb3c4; 0xae2eabe2a8; 0x1e4f43e470].

(** The inner loop of [polymod]: for [i] from [i0], xor [GENERATOR[i]] into
    the checksum when bit [i] of [topBits] is set. *)
Fixpoint polymod_generators (gens : list Z) (i : Z) (topBits checksum : Z) : Z :=
  match gens with
  | [] => checksum
  | g :: gens' =>
      let D := Z.land (Z.shiftr topBits i) 1 in
      let checksum := if D =? 1 then Z.lxor checksum g else checksum in
      polymod_generators gens' (i + 1) topBits checksum
  end.

(** One iteration of the outer loop of [polymod]. *)
Definition polymod_step (checksum value : Z) : Z :=
  let C := 0x07ffffffff in
  let topBits := Z.shiftr checksum 35 in
  let checksum := Z.land checksum C in
  let checksum := Z.lxor (Z.shiftl checksum 5) value in
  polymod_generators GENERATOR 0 topBits checksum.

Definition polymod (data : list Z) : Z :=
  Z.lxor (fold_left polymod_step data 1) 1.

(** The loop of [checksumToArray], before the final [reverse]. *)
Fixpoint checksum_digits (n : nat) (checksum : Z) : list Z :=
  match n with
  | O => []
  | S n' => Z.land checksum 31 :: checksum_digits n' (Z.shiftr checksum 5)
  end.

Definition checksumToArray (checksum : Z) : list Z :=
  rev (checksum_digits 8 checksum).

(** [validChecksum], local to [decodeCashAddress]. *)
Definition validChecksum (protocol : string) (payload : list Z) : bool :=
  let protocolData := protocolToArray protocol ++ [0] in
  polymod (protocolData ++ payload) =? 0.

(** ** The Base-32 alphabet codec *)

Module Base32.

Definition CHARSET : string := "qpzry9x8gf2tvdw0s3jn54khce6mua7l".

(** Position of [c] in [s], counted from [i]. *)
Fixpoint index_from (i : Z) (c : ascii) (s : string) : option Z :=
  match s with
  | EmptyString => None
  | String d s' => if Ascii.eqb c d then Some i else index_from (i + 1) c s'
  end.

Definition symbol_of_char (c : ascii) : option Z := index_from 0 c CHARSET.

Definition char_of_symbol (v : Z) : option ascii :=
  if (0 <=? v) && (v <? 32) then String.get (Z.to_nat v) CHARSET else None.

(** Modelled from the spec: [Base32.encode] of the common library, which is
    not part of the sources. The spec: a bidirectional mapping between the
    32-character CashAddr alphabet and 5-bit integer values. *)
Fixpoint encode (data : list Z) : result string :=
  match data with
  | [] => OK EmptyString
  | v :: data' =>
      match char_of_symbol v with
      | None => Throw (InvalidSymbol v)
      | Some c => let* s := encode data' in OK (String c s)
      end
  end.

(** Modelled from the spec: [Base32.decode] of the common library, which is
    not part of the sources. The spec: Base-32-decode the payload into a
    sequence of 5-bit symbols; invalid alphabet characters fail
    [InvalidCharacter]. *)
Fixpoint decode (s : string) : result (list Z) :=
  match s with
  | EmptyString => OK []
  | String c s' =>
      match symbol_of_char c with
      | None => Throw (InvalidCharacter c)
      | Some v => let* data := decode s' in OK (v :: data)
      end
  end.

End Base32.

(** ** The bit-regrouping transform *)

(** The [width] low bits of [v], most significant first. *)
Fixpoint bits_of (width : nat) (v : Z) : list bool :=
  match width with
  | O => []
  | S w => Z.testbit v (Z.of_nat w) :: bits_of w v
  end.

(** The number whose binary digits are [bits], most significant first. *)
Definition value_of (bits : list bool) : Z :=
  fold_left (fun acc (b : bool) => 2 * acc + Z.b2z b) bits 0.

(** Cuts a bit sequence into groups of [to] bits; [cur] holds the bits of
    the group being filled. Returns the complete groups, as numbers, and
    the bits of the last, incomplete group. *)
Fixpoint regroup (to : nat) (cur : list bool) (bits : list bool)
  : list Z * list bool :=
  match bits with
  | [] => ([], cur)
  | b :: bits' =>
      let cur' := cur ++ [b] in
      if (List.length cur' =? to)%nat then
        let (groups, rest) := regroup to [] bits' in
        (value_of cur' :: groups, rest)
      else regroup to cur' bits'
  end.

(** Modelled from the spec: [convertBits] of [lib/util/convertBits.js],
    which is not part of the sources. The spec: repacks a sequence of values
    expressed in one bit-width into a sequence expressed in another. When
    encoding ([strict] false) the final group is padded with zero bits to a
    full symbol; when decoding ([strict] true) incomplete trailing bits are
    discarded only if they are all zero, and if they are not the
    conversion fails [NonZeroPadding]. *)
Definition convertBits (data : list Z) (from to : nat) (strict : bool)
  : result (list Z) :=
  let (groups, rest) := regroup to [] (flat_map (bits_of from) data) in
  if strict then
    if existsb (fun b : bool => b) rest then Throw NonZeroPadding else OK groups
  else
    match rest with
    | [] => OK groups
    | _ => OK (groups ++ [value_of (rest ++ repeat false (to - List.length rest))])
    end.

(** ** Networks *)

(** A network descriptor, with the fields the address code reads. *)
Record Network : Type := {
  name : string;
  alias : string;
  protocol : string;
  prefix_pubkeyhash : Z;
  prefix_privatekey : Z;
  prefix_scripthash : Z
}.

(** What callers pass as a network: a [Network], a string or a number. *)
Inductive NetArg : Type :=
| NetObj (n : Network)
| NetStr (s : string)
| NetNum (z : Z).

Inductive PrefixKey : Type :=
| key_prefix_pubkeyhash
| key_prefix_scripthash.

(** The network registry ([lib/networks.js]) is not part of the sources; the
    address code is parametric in it.
    - [Networks_get arg] is [Networks.get(arg)];
    - [Networks_get_key byte key] is [Networks.get(byte, key)], for [key]
      one of ['prefix.pubkeyhash'] and ['prefix.scripthash'];
    - [Networks_defaultNetwork] is [Networks.defaultNetwork]. *)
Class Registry : Type := {
  Networks_get : NetArg -> option Network;
  Networks_get_key : Z -> PrefixKey -> option Network;
  Networks_defaultNetwork : Network
}.

Definition Network_eqb (a b : Network) : bool :=
  String.eqb (name a) (name b) && String.eqb (alias a) (alias b) &&
  String.eqb (protocol a) (protocol b) &&
  (prefix_pubkeyhash a =? prefix_pubkeyhash b) &&
  (prefix_privatekey a =? prefix_privatekey b) &&
  (prefix_scripthash a =? prefix_scripthash b).

(** Truthiness of a network argument: the empty string and zero are falsy. *)
Definition NetArg_truthy (a : NetArg) : bool :=
  match a with
  | NetObj _ => true
  | NetStr s => JS.truthy s
  | NetNum z => negb (z =? 0)
  end.

Definition opt_truthy {A : Type} (truthy : A -> bool) (o : option A) : bool :=
  match o with
  | None => false
  | Some a => truthy a
  end.

(** [a || b] on possibly undefined strings. *)
Definition or_string (a b : option string) : option string :=
  if opt_truthy JS.truthy a then a else b.

(** ** Addresses *)

Definition PayToPublicKeyHash : string := "pubkeyhash".
Definition PayToScriptHash : string := "scripthash".

(** The "info" object the transformers return: every field but the hash
    may be undefined. *)
Record Info : Type := {
  info_hashBuffer : list Z;
  info_network : option Network;
  info_type : option string
}.

(** An [Address] instance. *)
Record Address : Type := {
  hashBuffer : list Z;
  network : Network;
  type : string
}.

(** [s] between double quotes. *)
Definition quoted (s : string) : string :=
  (String (ascii_of_nat 34) s ++ String (ascii_of_nat 34) EmptyString)%string.

(** A number in decimal, as string concatenation prints it. *)
Definition decimal (z : Z) : string := NilZero.string_of_int (Z.to_int z).

(** A possibly undefined number used as an operand of [&]. *)
Definition toInt32 (v : option Z) : Z :=
  match v with
  | Some z => z
  | None => 0
  end.

Definition getHashSize (versionByte : option Z) : option Z :=
  match Z.land (toInt32 versionByte) 7 with
  | 0 => Some 160
  | 1 => Some 192
  | 2 => Some 224
  | 3 => Some 256
  | 4 => Some 320
  | 5 => Some 384
  | 6 => Some 448
  | 7 => Some 512
  | _ => None
  end.

(** [getType], local to [decodeCashAddress]. *)
Definition getType (versionByte : option Z) : result string :=
  match Z.land (toInt32 versionByte) 120 with
  | 0 => OK "pubkeyhash"
  | 8 => OK "scripthash"
  | _ => Throw (Error ("Invalid address type in version byte:" ++
                       match versionByte with
                       | Some z => decimal z
                       | None => "undefined"
                       end))
  end.

(** [getTypeBits], local to [toCashAddress]. *)
Definition getTypeBits (type : string) : result Z :=
  if String.eqb type "pubkeyhash" then OK 0
  else if String.eqb type "scripthash" then OK 8
  else Throw (Error ("Invalid type:" ++ type)).

(** [getHashSizeBits], local to [toCashAddress]. *)
Definition getHashSizeBits (hash : list Z) : result Z :=
  match Z.of_nat (List.length hash) * 8 with
  | 160 => OK 0
  | 192 => OK 1
  | 224 => OK 2
  | 256 => OK 3
  | 320 => OK 4
  | 384 => OK 5
  | 448 => OK 6
  | 512 => OK 7
  | _ => Throw (Error ("Invalid hash size:" ++ decimal (Z.of_nat (List.length hash))))
  end.

(** [hasSingleCase], local to [decodeCashAddress]. *)
Definition hasSingleCase (s : string) : bool :=
  let lowerCase := JS.toLowerCase s in
  let upperCase := JS.toUpperCase s in
  String.eqb s lowerCase || String.eqb s upperCase.

(** [payload.slice(0, -8)] *)
Definition slice_0_m8 (payload : list Z) : list Z :=
  firstn (List.length payload - 8) payload.

Definition toCashAddress (a : Address) (stripProtocol : bool) : result string :=
  let eight0 := [0; 0; 0; 0; 0; 0; 0; 0] in
  let protocolData := protocolToArray (protocol (network a)) ++ [0] in
  let* typeBits := getTypeBits (type a) in
  let* sizeBits := getHashSizeBits (hashBuffer a) in
  let versionByte := typeBits + sizeBits in
  let arr := hashBuffer a in
  let* payloadData := convertBits (versionByte :: arr) 8 5 false in
  let checksumData := protocolData ++ payloadData ++ eight0 in
  let payload := payloadData ++ checksumToArray (polymod checksumData) in
  let* encoded := Base32.encode payload in
  if stripProtocol then OK encoded
  else OK (protocol (network a) ++ ":" ++ encoded)%string.

(** ** Collaborators and constructor arguments *)

(** A public key, as far as the address code reads it: [toBuffer()] and
    the [network] property. *)
Record PublicKey : Type := {
  pubkey_buffer : list Z;
  pubkey_network : option Network
}.

(** A script, as far as the address code reads it: [toBuffer()]. *)
Record Script : Type := {
  script_buffer : list Z
}.

(** The collaborators outside the repository, or outside the sources: the
    hash primitive [Hash.sha256ripemd160], the [hex] decoding of
    [new Buffer(string, 'hex')], [script.getAddressInfo(network)] and
    [Script.buildMultisigOut(publicKeys, threshold)]. *)
Class Collaborators : Type := {
  Hash_sha256ripemd160 : list Z -> list Z;
  Buffer_from_hex : string -> list Z;
  Script_getAddressInfo : Script -> option NetArg -> option Info;
  Script_buildMultisigOut : list PublicKey -> Z -> result Script
}.

(** A plain object passed as [data]: its [hash], [hashBuffer], [type] and
    [network] properties, each possibly undefined. *)
Record ObjectData : Type := {
  data_hash : option string;
  data_hashBuffer : option (list Z);
  data_type : option string;
  data_network : option NetArg
}.

(** The first argument of the constructor, by shape. *)
Inductive Data : Type :=
| DUndefined
| DNumber (z : Z)
| DBuffer (bytes : list Z)
| DPublicKey (pubkey : PublicKey)
| DScript (script : Script)
| DString (str : string)
| DObject (obj : ObjectData)
| DArray (publicKeys : list PublicKey)
| DAddress (a : Address).

(** The properties of an [Address] read as a plain object. *)
Definition object_of_address (a : Address) : ObjectData :=
  {| data_hash := None; data_hashBuffer := Some (hashBuffer a);
     data_type := Some (type a); data_network := Some (NetObj (network a)) |}.

Definition Data_truthy (data : Data) : bool :=
  match data with
  | DUndefined => false
  | DNumber z => negb (z =? 0)
  | DString str => JS.truthy str
  | _ => true
  end.

Section WithRegistry.

Context {registry : Registry} {collaborators : Collaborators}.

(** The loop of [decodeCashAddress] that infers the protocol of a text
    without prefix: [proto] is the variable [protocol], the protocol found
    so far, and [netNames] holds the names still to try. *)
Fixpoint infer_protocol (proto : option string) (netNames : list string)
  (payload : list Z) : result (option string) :=
  if opt_truthy JS.truthy proto then OK proto
  else
    match netNames with
    | [] => OK proto
    | i :: netNames' =>
        match Networks_get (NetStr i) with
        | None => Throw (TypeError "Cannot read property 'protocol' of undefined")
        | Some n =>
            let p := protocol n in
            infer_protocol
              (if validChecksum p payload then Some p else proto)
              netNames' payload
        end
    end.

Definition decodeCashAddress (address : string) : result Info :=
  let* _ := checkArgument (hasSingleCase address) "Mixed case" in
  let address := JS.toLowerCase address in
  let pieces := JS.split_colon address in
  let* _ := checkArgument (List.length pieces <=? 2)%nat
              ("Invalid format:" ++ address) in
  let (proto, encodedPayload) :=
    match pieces with
    | [p0; p1] => (Some p0, p1)
    | p0 :: _ => (None, p0)
    | [] => (None, EmptyString)
    end in
  let* payload := Base32.decode (JS.toLowerCase encodedPayload) in
  let* proto :=
    if opt_truthy JS.truthy proto then
      let* _ := checkArgument
                  (opt_truthy (fun p => validChecksum p payload) proto)
                  ("Invalid checksum:" ++ address) in
      OK proto
    else
      let netNames := ["livenet"; "testnet"; "regtest"] in
      let* proto := infer_protocol proto netNames payload in
      let* _ := checkArgument (opt_truthy JS.truthy proto)
                  ("Invalid checksum:" ++ address) in
      OK proto in
  let* convertedBits := convertBits (slice_0_m8 payload) 5 8 true in
  let versionByte := hd_error convertedBits in
  let hash := tl convertedBits in
  let* _ := checkArgument
              (match getHashSize versionByte with
               | Some size => size =? Z.of_nat (List.length hash) * 8
               | None => false
               end)
              ("Invalid hash size:" ++ address) in
  let* type := getType versionByte in
  let network :=
    match proto with
    | Some p => Networks_get (NetStr p)
    | None => None
    end in
  OK {| info_hashBuffer := hash; info_network := network;
        info_type := Some type |}.

(** *** The classifier *)

(** [_transformHash] *)
Definition _transformHash (hash : list Z) : result Info :=
  if negb (List.length hash =? 20)%nat then
    Throw (TypeError "Address hashbuffers must be exactly 20 bytes.")
  else
    OK {| info_hashBuffer := hash; info_network := None; info_type := None |}.

(** [Networks.get] of a possibly undefined argument; an undefined argument
    names no network. *)
Definition Networks_get_opt (network : option NetArg) : option Network :=
  match network with
  | Some arg => Networks_get arg
  | None => None
  end.

Definition or_network (a b : option Network) : option Network :=
  match a with
  | Some n => Some n
  | None => b
  end.

(** [_transformObject] *)
Definition _transformObject (data : ObjectData) : result Info :=
  let* _ := checkArgument
              (opt_truthy JS.truthy (data_hash data) ||
               opt_truthy (fun _ => true) (data_hashBuffer data))
              "Must provide a `hash` or `hashBuffer` property" in
  let* _ := checkArgument (opt_truthy JS.truthy (data_type data))
              "Must provide a `type` property" in
  OK {| info_hashBuffer :=
          match data_hash data, data_hashBuffer data with
          | Some h, other =>
              if JS.truthy h then Buffer_from_hex h
              else match other with Some b => b | None => [] end
          | None, Some b => b
          | None, None => []
          end;
        info_network :=
          Some (match Networks_get_opt (data_network data) with
                | Some n => n
                | None => Networks_defaultNetwork
                end);
        info_type := data_type data |}.

(** [_classifyFromVersion]: the network and the type of the version
    object, each possibly undefined. *)
Definition _classifyFromVersion (buffer : list Z)
  : option Network * option string :=
  let pubkeyhashNetwork :=
    match hd_error buffer with
    | Some b => Networks_get_key b key_prefix_pubkeyhash
    | None => None
    end in
  let scripthashNetwork :=
    match hd_error buffer with
    | Some b => Networks_get_key b key_prefix_scripthash
    | None => None
    end in
  match pubkeyhashNetwork, scripthashNetwork with
  | Some n, _ => (Some n, Some PayToPublicKeyHash)
  | None, Some n => (Some n, Some PayToScriptHash)
  | None, None => (None, None)
  end.

(** [_transformBuffer]. Two network objects are the same object when
    they are equal as records. *)
Definition _transformBuffer (buffer : list Z) (network : option NetArg)
  (type : option string) : result Info :=
  if negb (List.length buffer =? 1 + 20)%nat then
    Throw (TypeError "Address buffers must be exactly 21 bytes.")
  else
    let bufferVersion := _classifyFromVersion buffer in
    let* _ :=
      if opt_truthy NetArg_truthy network then
        match Networks_get_opt network with
        | None => Throw (TypeError "Unknown network")
        | Some network =>
            match fst bufferVersion with
            | None => Throw (TypeError "Address has mismatched network type.")
            | Some versionNetwork =>
                if negb (Network_eqb network versionNetwork) then
                  Throw (TypeError "Address has mismatched network type.")
                else OK tt
            end
        end
      else OK tt in
    match snd bufferVersion with
    | None => Throw (TypeError "Address has mismatched type.")
    | Some versionType =>
        if opt_truthy (fun t => JS.truthy t && negb (String.eqb t versionType))
             type
        then Throw (TypeError "Address has mismatched type.")
        else OK {| info_hashBuffer := tl buffer;
                   info_network := fst bufferVersion;
                   info_type := Some versionType |}
    end.

(** [_transformPublicKey] *)
Definition _transformPublicKey (pubkey : PublicKey) : result Info :=
  OK {| info_hashBuffer := Hash_sha256ripemd160 (pubkey_buffer pubkey);
        info_network := None;
        info_type := Some PayToPublicKeyHash |}.

(** [_transformScript] *)
Definition _transformScript (script : Script) (network : option NetArg)
  : result Info :=
  match Script_getAddressInfo script network with
  | None => Throw CantDeriveAddress
  | Some info => OK info
  end.

(** [_transformString] *)
Definition _transformString (data : string) (network : option NetArg)
  (type : option string) : result Info :=
  if (String.length data <? 34)%nat then
    Throw (Error "Invalid Address string provided")
  else
    let data := JS.trim data in
    let networkObj := Networks_get_opt network in
    if opt_truthy NetArg_truthy network && negb (opt_truthy (fun _ => true) networkObj)
    then Throw (TypeError "Unknown network")
    else if (35 <? String.length data)%nat then
      let* info := decodeCashAddress data in
      match info_network info with
      | None => Throw (TypeError "Address has mismatched network type.")
      | Some infoNetwork =>
          if opt_truthy (fun n => negb (String.eqb (name n) (name infoNetwork)))
               networkObj
          then Throw (TypeError "Address has mismatched network type.")
          else
            match info_type info with
            | None => Throw (TypeError "Address has mismatched type.")
            | Some infoType =>
                if JS.truthy infoType &&
                   negb (opt_truthy
                           (fun t => JS.truthy t && negb (String.eqb t infoType))
                           type)
                then OK info
                else Throw (TypeError "Address has mismatched type.")
            end
      end
    else
      Throw (Error "Invalid Address string provided").

(** [_classifyArguments]. A buffer of another length than 20 or 21, and an
    array, are objects without [hash] and [hashBuffer] properties; an
    [Address] is an object with [hashBuffer], [type] and [network]. *)
Definition _classifyArguments (data : Data) (network : option NetArg)
  (type : option string) : result Info :=
  match data with
  | DBuffer bytes =>
      if (List.length bytes =? 20)%nat then _transformHash bytes
      else if (List.length bytes =? 21)%nat then
        _transformBuffer bytes network type
      else _transformObject
             {| data_hash := None; data_hashBuffer := None;
                data_type := None; data_network := None |}
  | DPublicKey pubkey => _transformPublicKey pubkey
  | DScript script => _transformScript script network
  | DString str => _transformString str network type
  | DObject obj => _transformObject obj
  | DArray _ =>
      _transformObject
        {| data_hash := None; data_hashBuffer := None;
           data_type := None; data_network := None |}
  | DAddress a => _transformObject (object_of_address a)
  | DUndefined | DNumber _ =>
      Throw (TypeError "First argument is an unrecognized data format.")
  end.

(** The constructor [Address] after its array test: what
    [new Address(data, network, type)] does when [data] is no array of
    public keys. *)
Definition Address_of (data : Data) (network : option NetArg)
  (type : option string) : result Address :=
  match data with
  | DAddress a => OK a
  | _ =>
      let* _ := checkArgument (Data_truthy data)
                  "First argument is required, please include address data." in
      if opt_truthy NetArg_truthy network &&
         negb (opt_truthy (fun _ => true) (Networks_get_opt network))
      then Throw (TypeError "Second argument must be a supported network.")
      else if opt_truthy
                (fun t => JS.truthy t &&
                          negb (String.eqb t PayToPublicKeyHash) &&
                          negb (String.eqb t PayToScriptHash)) type
      then Throw (TypeError ("Third argument must be " ++ quoted "pubkeyhash" ++
                             " or " ++ quoted "scripthash" ++ "."))
      else
        let* info := _classifyArguments data network type in
        let network :=
          match or_network (info_network info) (Networks_get_opt network) with
          | Some n => n
          | None => Networks_defaultNetwork
          end in
        let type :=
          match or_string (info_type info) type with
          | Some t => if JS.truthy t then t else PayToPublicKeyHash
          | None => PayToPublicKeyHash
          end in
        OK {| hashBuffer := info_hashBuffer info; network := network;
              type := type |}
  end.

(** [Address.fromScriptHash] *)
Definition fromScriptHash (hash : list Z) (network : option NetArg)
  : result Address :=
  let* info := _transformHash hash in
  Address_of (DBuffer (info_hashBuffer info)) network (Some PayToScriptHash).

(** [Address.payingTo] *)
Definition payingTo (script : Script) (network : option NetArg)
  : result Address :=
  fromScriptHash (Hash_sha256ripemd160 (script_buffer script)) network.

(** [Address.createMultisig] *)
Definition createMultisig (publicKeys : list PublicKey) (threshold : Z)
  (network : option NetArg) : result Address :=
  let* network :=
    if opt_truthy NetArg_truthy network then OK network
    else
      match publicKeys with
      | [] => Throw (TypeError "Cannot read property 'network' of undefined")
      | k :: _ =>
          match pubkey_network k with
          | Some n => OK (Some (NetObj n))
          | None => OK (Some (NetObj Networks_defaultNetwork))
          end
      end in
  let* script := Script_buildMultisigOut publicKeys threshold in
  payingTo script network.

(** The constructor [Address(data, network, type)]. *)
Definition Address_new (data : Data) (network : option NetArg)
  (type : option string) : result Address :=
  match data, network with
  | DArray publicKeys, Some (NetNum threshold) =>
      createMultisig publicKeys threshold (option_map NetStr type)
  | _, _ => Address_of data network type
  end.

(** [Address.fromBuffer] *)
Definition fromBuffer (buffer : list Z) (network : option NetArg)
  (type : option string) : result Address :=
  let* info := _transformBuffer buffer network type in
  Address_new (DBuffer (info_hashBuffer info))
    (option_map NetObj (info_network info)) (info_type info).

(** [Address.fromString] *)
Definition fromString (str : string) (network : option NetArg)
  (type : option string) : result Address :=
  let* info := _transformString str network type in
  Address_new (DBuffer (info_hashBuffer info))
    (option_map NetObj (info_network info)) (info_type info).

End WithRegistry.

(** *** Further factories and validation *)

Section Factories.

Context {registry : Registry} {collaborators : Collaborators}.

(** [Address.fromPublicKey] *)
Definition fromPublicKey (data : PublicKey) (network : option NetArg)
  : result Address :=
  let* info := _transformPublicKey data in
  let network :=
    match Networks_get_opt network with
    | Some n => n
    | None => Networks_defaultNetwork
    end in
  Address_new (DBuffer (info_hashBuffer info)) (Some (NetObj network))
    (info_type info).

(** [Address.fromPublicKeyHash] *)
Definition fromPublicKeyHash (hash : list Z) (network : option NetArg)
  : result Address :=
  let* info := _transformHash hash in
  Address_new (DBuffer (info_hashBuffer info)) network
    (Some PayToPublicKeyHash).

(** [Address.fromScript] *)
Definition fromScript (script : Script) (network : option NetArg)
  : result Address :=
  let* info := _transformScript script network in
  Address_new (DBuffer (info_hashBuffer info)) network (info_type info).

(** [Address.getValidationError]: the error that the constructor throws,
    or nothing. *)
Definition getValidationError (data : Data) (network : option NetArg)
  (type : option string) : option exn :=
  match Address_new data network type with
  | OK _ => None
  | Throw e => Some e
  end.

(** [Address.isValid] *)
Definition isValid (data : Data) (network : option NetArg)
  (type : option string) : bool :=
  match getValidationError data network type with
  | None => true
  | Some _ => false
  end.

End Factories.

(** ** Observers *)



(** [network.prefix[key]] *)
Definition prefix_of (n : Network) (key : string) : option Z :=
  if String.eqb key "pubkeyhash" then Some (prefix_pubkeyhash n)
  else if String.eqb key "privatekey" then Some (prefix_privatekey n)
  else if String.eqb key "scripthash" then Some (prefix_scripthash n)
  else None.

(** [toBuffer]: a buffer stores every number modulo 256, and zero for
    undefined. *)
Definition toBuffer (a : Address) : list Z :=
  let version := [Z.land (toInt32 (prefix_of (network a) (type a))) 255] in
  version ++ hashBuffer a.

Definition hex_digit (d : Z) : ascii :=
  match String.get (Z.to_nat d) "0123456789abcdef" with
  | Some c => c
  | None => "0"%char
  end.

(** [buffer.toString('hex')] *)
Fixpoint toString_hex (buffer : list Z) : string :=
  match buffer with
  | [] => EmptyString
  | b :: buffer' =>
      String (hex_digit (Z.shiftr (Z.land b 255) 4))
        (String (hex_digit (Z.land b 15)) (toString_hex buffer'))
  end.

(** [toObject]; [network.toString()] is the name of the network. *)
Definition toObject (a : Address) : ObjectData :=
  {| data_hash := Some (toString_hex (hashBuffer a));
     data_hashBuffer := None;
     data_type := Some (type a);
     data_network := Some (NetStr (name (network a))) |}.


(** *** Addresses in memory

    JavaScript holds a Buffer by reference. The memory is the list of the
    blocks of bytes allocated so far, and a Buffer is a view of one block:
    two Buffers on the same block share its bytes. *)

Record Buffer : Type := {
  buffer_block : nat;
  buffer_offset : nat;
  buffer_length : nat
}.

Definition Memory : Type := list (list Z).


(** The bytes that a Buffer shows. *)
Definition Buffer_bytes (memory : Memory) (buffer : Buffer) : list Z :=
  firstn (buffer_length buffer)
    (skipn (buffer_offset buffer) (nth (buffer_block buffer) memory [])).



(** A new block that holds [bytes], and the Buffer on it. *)
Definition Buffer_alloc (memory : Memory) (bytes : list Z) : Buffer * Memory :=
  ({| buffer_block := List.length memory; buffer_offset := 0;
      buffer_length := List.length bytes |},
   memory ++ [bytes]).





















Section InMemory.

Context {registry : Registry} {collaborators : Collaborators}.


End InMemory.

(** ** A registry for the examples

    The descriptors of the three networks the decoder names, with the
    names and the prefix bytes that the tests of the registry show. *)

Definition livenet : Network :=
  {| name := "bch"; alias := "livenet"; protocol := "bitcoincash";
     prefix_pubkeyhash := 0x00; prefix_privatekey := 0x80;
     prefix_scripthash := 0x05 |}.

Definition testnet : Network :=
  {| name := "bchtest"; alias := "testnet"; protocol := "bchtest";
     prefix_pubkeyhash := 0x6f; prefix_privatekey := 0xef;
     prefix_scripthash := 0xc4 |}.

Definition regtest : Network :=
  {| name := "bchreg"; alias := "regtest"; protocol := "bchreg";
     prefix_pubkeyhash := 0x6f; prefix_privatekey := 0xef;
     prefix_scripthash := 0xc4 |}.

Definition example_networks : list Network := [livenet; testnet; regtest].

(** A hash of twenty zero bytes. *)
Definition zero_hash : list Z := repeat 0 20.

Definition example_get (arg : NetArg) : option Network :=
  match arg with
  | NetObj n => find (Network_eqb n) example_networks
  | NetStr s =>
      find (fun n => String.eqb (name n) s || String.eqb (alias n) s ||
                     String.eqb (protocol n) s) example_networks
  | NetNum _ => None
  end.

Definition example_get_key (byte : Z) (key : PrefixKey) : option Network :=
  find (fun n =>
          match key with
          | key_prefix_pubkeyhash => prefix_pubkeyhash n =? byte
          | key_prefix_scripthash => prefix_scripthash n =? byte
          end) example_networks.

Definition example_registry : Registry :=
  {| Networks_get := example_get;
     Networks_get_key := example_get_key;
     Networks_defaultNetwork := livenet |}.

Definition example_collaborators : Collaborators :=
  {| Hash_sha256ripemd160 := fun _ => repeat 0 20;
     Buffer_from_hex := fun _ => repeat 0 20;
     Script_getAddressInfo := fun _ _ => None;
     Script_buildMultisigOut := fun _ _ => OK {| script_buffer := [] |} |}.

(** Decoding of lower-case hexadecimal text, pair by pair, for the
    examples. *)
Fixpoint from_hex (s : string) : list Z :=
  match s with
  | String a (String b s') =>
      match Base32.index_from 0 a "0123456789abcdef",
            Base32.index_from 0 b "0123456789abcdef" with
      | Some x, Some y => (16 * x + y) :: from_hex s'
      | _, _ => []
      end
  | _ => []
  end.

Definition hex_collaborators : Collaborators :=
  {| Hash_sha256ripemd160 := fun _ => repeat 7 20;
     Buffer_from_hex := from_hex;
     Script_getAddressInfo := fun _ _ => None;
     Script_buildMultisigOut := fun _ _ => OK {| script_buffer := [81; 174] |} |}.

(** A hash of twenty different bytes. *)
Definition sample_hash : list Z :=
  [0; 17; 34; 51; 68; 85; 102; 119; 136; 153;
   170; 187; 204; 221; 238; 255; 1; 35; 69; 103].

(** * Vocabulary of the properties *)

(** A 40-bit checksum, a 5-bit symbol and a byte. *)
Definition state (c : Z) : Prop := 0 <= c < 2 ^ 40.
Definition symbol (v : Z) : Prop := 0 <= v < 32.
Definition byte (b : Z) : Prop := 0 <= b < 256.

(** What the generator loop xors into the checksum for [topBits]. *)
Definition gen_xor (topBits : Z) : Z := polymod_generators GENERATOR 0 topBits 0.

(** The digits read as one number in base 32, after the digits of [D]. *)
Definition horner (D : Z) (digits : list Z) : Z :=
  fold_left (fun D d => Z.lxor (Z.shiftl D 5) d) digits D.

(** The checksum after the protocol and its separator: where the checksum
    of every payload of that protocol starts. *)
Definition prefix_state (p : string) : Z :=
  fold_left polymod_step (protocolToArray p ++ [0]) 1.

Fixpoint colon_free (s : string) : bool :=
  match s with
  | EmptyString => true
  | String c s' => negb (Ascii.eqb c ":"%char) && colon_free s'
  end.

Definition protocol_wellformed (p : string) : bool :=
  JS.truthy p && String.eqb (JS.toLowerCase p) p && colon_free p.

Section Stages.

Context {registry : Registry}.

(** From the regrouping on: the version byte, the hash and the network. *)
Definition decode_payload (address : string) (proto : option string)
  (payload : list Z) : result Info :=
  let* convertedBits := convertBits (slice_0_m8 payload) 5 8 true in
  let versionByte := hd_error convertedBits in
  let hash := tl convertedBits in
  let* _ := checkArgument
              (match getHashSize versionByte with
               | Some size => size =? Z.of_nat (List.length hash) * 8
               | None => false
               end)
              ("Invalid hash size:" ++ address) in
  let* type := getType versionByte in
  let network :=
    match proto with
    | Some p => Networks_get (NetStr p)
    | None => None
    end in
  OK {| info_hashBuffer := hash; info_network := network;
        info_type := Some type |}.

(** The checksum stage, for a protocol read from the text or not. *)
Definition decode_checksum (address : string) (proto : option string)
  (payload : list Z) : result Info :=
  let* proto :=
    if opt_truthy JS.truthy proto then
      let* _ := checkArgument
                  (opt_truthy (fun p => validChecksum p payload) proto)
                  ("Invalid checksum:" ++ address) in
      OK proto
    else
      let netNames := ["livenet"; "testnet"; "regtest"] in
      let* proto := infer_protocol proto netNames payload in
      let* _ := checkArgument (opt_truthy JS.truthy proto)
                  ("Invalid checksum:" ++ address) in
      OK proto in
  decode_payload address proto payload.

(** A network is registered when the registry finds it under its
    protocol, and the protocol is a non-empty lower-case word. *)
Definition registered (n : Network) : Prop :=
  protocol_wellformed (protocol n) = true /\
  Networks_get (NetStr (protocol n)) = Some n.

End Stages.

(** The sizes [getHashSize] selects, by the low three bits. *)
Definition hash_sizes : list Z := [160; 192; 224; 256; 320; 384; 448; 512].

(** The payload part and the protocol part of a text, as
    [decodeCashAddress] reads them. *)
Definition payload_text (address : string) : string :=
  JS.toLowerCase
    match JS.split_colon (JS.toLowerCase address) with
    | [p0; p1] => p1
    | p0 :: _ => p0
    | [] => EmptyString
    end.

Definition protocol_text (address : string) : option string :=
  match JS.split_colon (JS.toLowerCase address) with
  | [p0; p1] => Some p0
  | _ => None
  end.

(** The number of colons of a text. *)
Fixpoint colons (s : string) : nat :=
  match s with
  | EmptyString => O
  | String c s' => if Ascii.eqb c ":"%char then S (colons s') else colons s'
  end.

(** The type argument passes the test of the constructor. *)
Definition type_argument_ok (type : option string) : Prop :=
  type = None \/ type = Some PayToPublicKeyHash \/ type = Some PayToScriptHash.

Section Derived.

Context {registry : Registry}.

(** The network argument passes the test of the constructor: it is
    absent or falsy, or it names a network. *)
Definition network_argument_ok (network : option NetArg) : Prop :=
  opt_truthy NetArg_truthy network = true -> Networks_get_opt network <> None.

(** The network and the type that a 21-byte buffer or a text determine. *)
Definition derived (data : Data) : option (Network * string) :=
  match data with
  | DBuffer buffer =>
      if (List.length buffer =? 21)%nat then
        match _classifyFromVersion buffer with
        | (Some n, Some t) => Some (n, t)
        | _ => None
        end
      else None
  | DString str =>
      if (34 <=? String.length str)%nat && (35 <? String.length (JS.trim str))%nat
      then
        match decodeCashAddress (JS.trim str) with
        | OK info =>
            match info_network info, info_type info with
            | Some n, Some t => Some (n, t)
            | _, _ => None
            end
        | Throw _ => None
        end
      else None
  | _ => None
  end.

End Derived.

(** [n] steps of the checksum over the symbol zero. *)
Definition zero_steps (n : nat) (c : Z) : Z :=
  fold_left polymod_step (repeat 0 n) c.

(** No payload of at most [bound] symbols that is valid for the protocol
    [p] becomes valid for the protocol [q] when one symbol is replaced:
    the difference of the two starting states never steps to a single
    non-zero symbol. *)
Definition separated (bound : nat) (p q : string) : bool :=
  forallb
    (fun k =>
       let x := zero_steps (S k) (Z.lxor (prefix_state p) (prefix_state q)) in
       negb ((0 <? x) && (x <? 32)))
    (seq 0 bound).

(** The hash lengths, in bytes, that the version byte can announce. *)
Definition hash_lengths : list nat := [20; 24; 28; 32; 40; 48; 56; 64]%nat.

(** No white space in a text. *)
Fixpoint space_free (s : string) : bool :=
  match s with
  | EmptyString => true
  | String c s' => negb (JS.is_space c) && space_free s'
  end.



(** * Properties *)

(** ** Finite checks *)

Lemma range_forallb (f : Z -> bool) (n : nat) :
  forallb f (map Z.of_nat (seq 0 n)) = true ->
  forall t, 0 <= t < Z.of_nat n -> f t = true.
Proof.
  intros H t Ht. rewrite forallb_forall in H. apply H.
  apply in_map_iff. exists (Z.to_nat t). split; [lia|].
  apply in_seq. lia.
Qed.

(** ** Bit arithmetic *)

Ltac bitwise :=
  apply Z.bits_inj'; intros ?m ?Hm;
  repeat rewrite ?Z.lxor_spec, ?Z.land_spec, ?Z.lor_spec, ?Z.bits_0;
  repeat match goal with
         | |- context [Z.testbit ?x ?m] => destruct (Z.testbit x m)
         end;
  reflexivity.

Lemma land_lxor_distr (a b c : Z) :
  Z.land (Z.lxor a b) c = Z.lxor (Z.land a c) (Z.land b c).
Proof. bitwise. Qed.

Lemma lxor_range (n a b : Z) :
  0 <= n -> 0 <= a < 2 ^ n -> 0 <= b < 2 ^ n -> 0 <= Z.lxor a b < 2 ^ n.
Proof.
  intros Hn Ha Hb.
  assert (E : Z.lxor a b = Z.land (Z.lxor a b) (Z.ones n)).
  { rewrite land_lxor_distr, !Z.land_ones by lia.
    rewrite !Z.mod_small by lia. reflexivity. }
  rewrite E, Z.land_ones by lia. apply Z.mod_pos_bound. lia.
Qed.

Lemma lxor_cancel_l (x a b : Z) : Z.lxor x a = Z.lxor x b -> a = b.
Proof.
  intros H.
  assert (E : forall y, Z.lxor x (Z.lxor x y) = y).
  { intros y. rewrite <- Z.lxor_assoc, Z.lxor_nilpotent, Z.lxor_0_l. reflexivity. }
  rewrite <- (E a), <- (E b), H. reflexivity.
Qed.

Lemma lxor_cancel_r (x a b : Z) : Z.lxor a x = Z.lxor b x -> a = b.
Proof. rewrite !(Z.lxor_comm _ x). apply lxor_cancel_l. Qed.

Lemma split_low5 (x : Z) :
  Z.lxor (Z.shiftl (Z.shiftr x 5) 5) (Z.land x 31) = x.
Proof.
  apply Z.bits_inj'. intros m Hm.
  change 31 with (Z.ones 5).
  rewrite Z.lxor_spec, Z.land_spec.
  destruct (Z.ltb_spec m 5).
  - rewrite Z.shiftl_spec_low, Z.ones_spec_low by lia.
    rewrite andb_true_r. reflexivity.
  - rewrite Z.shiftl_spec, Z.shiftr_spec, Z.ones_spec_high by lia.
    rewrite andb_false_r, xorb_false_r. f_equal. lia.
Qed.

(** ** The checksum step *)

Lemma polymod_generators_lxor (topBits x : Z) :
  polymod_generators GENERATOR 0 topBits x = Z.lxor x (gen_xor topBits).
Proof.
  unfold gen_xor, GENERATOR, polymod_generators.
  repeat match goal with
         | |- context [if ?c then _ else _] => destruct c
         end;
    rewrite ?Z.lxor_0_l, ?Z.lxor_0_r, <- ?Z.lxor_assoc; reflexivity.
Qed.

Lemma polymod_step_eq (c v : Z) :
  polymod_step c v =
  Z.lxor (Z.lxor (Z.shiftl (Z.land c (Z.ones 35)) 5) v) (gen_xor (Z.shiftr c 35)).
Proof. unfold polymod_step. apply polymod_generators_lxor. Qed.

Lemma gen_xor_facts (t : Z) :
  0 <= t < 32 -> Z.land (gen_xor t) 31 = t /\ 0 <= gen_xor t < 2 ^ 40.
Proof.
  intros Ht.
  pose proof (range_forallb
    (fun t => (Z.land (gen_xor t) 31 =? t) && (0 <=? gen_xor t) &&
              (gen_xor t <? 2 ^ 40)) 32 eq_refl t Ht) as H.
  cbv beta in H. rewrite !andb_true_iff in H. destruct H as [[H1 H2] H3].
  apply Z.eqb_eq in H1. apply Z.leb_le in H2. apply Z.ltb_lt in H3. auto.
Qed.

Lemma top_range (c : Z) : 0 <= c < 2 ^ 40 -> 0 <= Z.shiftr c 35 < 32.
Proof.
  intros Hc. rewrite Z.shiftr_div_pow2 by lia. split.
  - apply Z.div_pos; lia.
  - apply Z.div_lt_upper_bound; lia.
Qed.

Lemma low_range (c : Z) : 0 <= Z.land c (Z.ones 35) < 2 ^ 35.
Proof. rewrite Z.land_ones by lia. apply Z.mod_pos_bound. lia. Qed.

Lemma shiftl5_range (x : Z) : 0 <= x < 2 ^ 35 -> 0 <= Z.shiftl x 5 < 2 ^ 40.
Proof. intros Hx. rewrite Z.shiftl_mul_pow2 by lia. lia. Qed.

Lemma shiftl5_low (x : Z) : Z.land (Z.shiftl x 5) 31 = 0.
Proof.
  change 31 with (Z.ones 5). rewrite Z.land_ones, Z.shiftl_mul_pow2 by lia.
  apply Z.mod_mul. lia.
Qed.

Lemma polymod_step_state (c v : Z) :
  state c -> symbol v -> state (polymod_step c v).
Proof.
  unfold state, symbol. intros Hc Hv. rewrite polymod_step_eq.
  apply lxor_range; [lia| |apply gen_xor_facts, top_range, Hc].
  apply lxor_range; [lia| |lia].
  apply shiftl5_range, low_range.
Qed.

Lemma fold_polymod_step_state (data : list Z) (c : Z) :
  state c -> Forall symbol data -> state (fold_left polymod_step data c).
Proof.
  revert c. induction data as [|v data IH]; intros c Hc Hd; simpl; [exact Hc|].
  inversion Hd; subst. apply IH; [apply polymod_step_state|]; assumption.
Qed.

(** The step is injective in the checksum. *)
Lemma polymod_step_inj (c1 c2 v : Z) :
  state c1 -> state c2 -> polymod_step c1 v = polymod_step c2 v -> c1 = c2.
Proof.
  unfold state. intros H1 H2 E. rewrite !polymod_step_eq in E.
  destruct (gen_xor_facts _ (top_range c1 H1)) as [G1 _].
  destruct (gen_xor_facts _ (top_range c2 H2)) as [G2 _].
  assert (T : Z.shiftr c1 35 = Z.shiftr c2 35).
  { pose proof (f_equal (fun x => Z.land x 31) E) as L. cbv beta in L.
    rewrite !land_lxor_distr, !shiftl5_low, G1, G2, !Z.lxor_0_l in L.
    apply lxor_cancel_l in L. exact L. }
  rewrite T in E. apply lxor_cancel_r, lxor_cancel_r in E.
  rewrite !Z.shiftl_mul_pow2 in E by lia.
  assert (L : Z.land c1 (Z.ones 35) = Z.land c2 (Z.ones 35)) by lia.
  rewrite !Z.land_ones in L by lia.
  rewrite !Z.shiftr_div_pow2 in T by lia.
  rewrite (Z.div_mod c1 (2 ^ 35)), (Z.div_mod c2 (2 ^ 35)) by lia.
  rewrite T, L. reflexivity.
Qed.

Lemma fold_polymod_step_inj (data : list Z) (c1 c2 : Z) :
  Forall symbol data -> state c1 -> state c2 ->
  fold_left polymod_step data c1 = fold_left polymod_step data c2 -> c1 = c2.
Proof.
  revert c1 c2. induction data as [|v data IH]; intros c1 c2 Hd H1 H2 E;
    simpl in E; [exact E|].
  inversion Hd; subst.
  apply (polymod_step_inj c1 c2 v H1 H2).
  apply IH; auto using polymod_step_state.
Qed.

(** Two symbols give different checksums. *)
Lemma polymod_step_symbol_inj (c v1 v2 : Z) :
  polymod_step c v1 = polymod_step c v2 -> v1 = v2.
Proof.
  rewrite !polymod_step_eq. intros E.
  apply lxor_cancel_r, lxor_cancel_l in E. exact E.
Qed.

(** ** Appending the checksum digits *)

Lemma polymod_step_lxor_low (c D v : Z) :
  0 <= D < 2 ^ 35 ->
  polymod_step (Z.lxor c D) v =
  Z.lxor (polymod_step c 0) (Z.lxor (Z.shiftl D 5) v).
Proof.
  intros HD. rewrite !polymod_step_eq.
  rewrite Z.shiftr_lxor, (Z.shiftr_div_pow2 D), (Z.div_small D), Z.lxor_0_r by lia.
  rewrite land_lxor_distr, (Z.land_ones D), (Z.mod_small D) by lia.
  rewrite Z.shiftl_lxor.
  bitwise.
Qed.

Lemma fold_polymod_step_digits (digits : list Z) :
  forall c D,
    Forall symbol digits ->
    0 <= D < 2 ^ (40 - 5 * Z.of_nat (List.length digits)) ->
    fold_left polymod_step digits (Z.lxor c D) =
    Z.lxor (fold_left polymod_step (repeat 0 (List.length digits)) c)
           (horner D digits).
Proof.
  induction digits as [|d digits IH]; intros c D Hd HD.
  - reflexivity.
  - inversion Hd as [|? ? Hs Hd']; subst. unfold symbol in Hs.
    cbn [List.length] in HD. rewrite Nat2Z.inj_succ in HD.
    set (n := Z.of_nat (List.length digits)) in *.
    assert (Hn : 0 <= n) by (subst n; lia).
    assert (Hle : 5 * n + 5 <= 40).
    { destruct (Z.le_gt_cases (5 * n + 5) 40) as [|Hgt]; [assumption|].
      rewrite Z.pow_neg_r in HD by lia. lia. }
    assert (HD35 : 0 <= D < 2 ^ 35).
    { split; [lia|]. apply Z.lt_le_trans with (2 ^ (40 - 5 * Z.succ n)); [lia|].
      apply Z.pow_le_mono_r; lia. }
    cbn [fold_left repeat List.length horner].
    rewrite polymod_step_lxor_low by assumption.
    rewrite IH; [reflexivity|assumption|].
    fold n.
    replace (40 - 5 * n) with ((40 - 5 * Z.succ n) + 5) by lia.
    assert (0 <= Z.shiftl D 5 < 2 ^ (40 - 5 * Z.succ n + 5)).
    { rewrite Z.shiftl_mul_pow2, Z.pow_add_r by lia. lia. }
    apply lxor_range; [lia|assumption|].
    split; [lia|]. apply Z.lt_le_trans with (2 ^ 5); [lia|].
    apply Z.pow_le_mono_r; lia.
Qed.

Lemma checksum_digits_symbols (n : nat) (P : Z) :
  Forall symbol (checksum_digits n P).
Proof.
  revert P. induction n as [|n IH]; intros P; simpl; constructor; [|apply IH].
  unfold symbol. change 31 with (Z.ones 5). rewrite Z.land_ones by lia.
  apply Z.mod_pos_bound. lia.
Qed.

Lemma checksum_digits_length (n : nat) (P : Z) :
  List.length (checksum_digits n P) = n.
Proof. revert P. induction n; intros P; simpl; congruence. Qed.

Lemma checksum_digits_horner (n : nat) (P : Z) :
  fold_right (fun d D => Z.lxor (Z.shiftl D 5) d)
    (Z.shiftr P (5 * Z.of_nat n)) (checksum_digits n P) = P.
Proof.
  revert P. induction n as [|n IH]; intros P.
  - simpl. apply Z.shiftr_0_r.
  - cbn [checksum_digits fold_right].
    replace (Z.shiftr P (5 * Z.of_nat (S n)))
      with (Z.shiftr (Z.shiftr P 5) (5 * Z.of_nat n))
      by (rewrite Z.shiftr_shiftr by lia; f_equal; lia).
    rewrite IH. apply split_low5.
Qed.

Lemma horner_checksumToArray (P : Z) :
  0 <= P < 2 ^ 40 -> horner 0 (checksumToArray P) = P.
Proof.
  intros HP. unfold horner, checksumToArray.
  rewrite <- fold_left_rev_right, rev_involutive.
  pose proof (checksum_digits_horner 8 P) as H.
  rewrite (Z.shiftr_div_pow2 P), (Z.div_small P) in H by (cbn; lia).
  exact H.
Qed.

(** A payload followed by the digits of its checksum has checksum zero. *)
Lemma polymod_checksum (data : list Z) :
  Forall symbol data ->
  polymod (data ++ checksumToArray (polymod (data ++ [0; 0; 0; 0; 0; 0; 0; 0]))) = 0.
Proof.
  intros Hd. unfold polymod. rewrite !fold_left_app.
  set (c := fold_left polymod_step data 1).
  assert (Hc : state c) by (apply fold_polymod_step_state; [unfold state; lia|assumption]).
  set (S := fold_left polymod_step [0; 0; 0; 0; 0; 0; 0; 0] c).
  assert (HS : state S).
  { apply fold_polymod_step_state; [assumption|].
    repeat constructor; unfold symbol; lia. }
  assert (HP : 0 <= Z.lxor S 1 < 2 ^ 40).
  { apply lxor_range; unfold state in HS; lia. }
  rewrite <- (Z.lxor_0_r c) at 1.
  rewrite fold_polymod_step_digits.
  - unfold checksumToArray at 1. rewrite length_rev, checksum_digits_length.
    change (fold_left polymod_step (repeat 0 8) c) with S.
    rewrite horner_checksumToArray by assumption.
    rewrite <- Z.lxor_assoc, Z.lxor_nilpotent, Z.lxor_0_l. reflexivity.
  - unfold checksumToArray. apply Forall_rev, checksum_digits_symbols.
  - unfold checksumToArray. rewrite length_rev, checksum_digits_length. cbn. lia.
Qed.

(** ** Bit regrouping *)

Lemma value_of_snoc (bits : list bool) (b : bool) :
  value_of (bits ++ [b]) = 2 * value_of bits + Z.b2z b.
Proof. unfold value_of. rewrite fold_left_app. reflexivity. Qed.

Lemma value_of_range (bits : list bool) :
  0 <= value_of bits < 2 ^ Z.of_nat (List.length bits).
Proof.
  induction bits as [|b bits IH] using rev_ind.
  - cbn. lia.
  - rewrite value_of_snoc, length_app, Nat2Z.inj_add, Z.pow_add_r by lia.
    cbn [List.length]. change (2 ^ Z.of_nat 1) with 2.
    destruct b; cbn [Z.b2z]; lia.
Qed.

Lemma regroup_short (to : nat) (bits cur : list bool) :
  (List.length cur + List.length bits < to)%nat ->
  regroup to cur bits = ([], cur ++ bits).
Proof.
  revert cur. induction bits as [|b bits IH]; intros cur H; cbn [regroup].
  - rewrite app_nil_r. reflexivity.
  - cbn [List.length] in H.
    destruct (Nat.eqb_spec (List.length (cur ++ [b])) to) as [E|_].
    + rewrite length_app in E. cbn in E. lia.
    + rewrite IH by (rewrite length_app; cbn; lia).
      rewrite <- app_assoc. reflexivity.
Qed.

Lemma regroup_group (to : nat) (group rest cur : list bool) :
  group <> [] -> (List.length cur + List.length group = to)%nat ->
  regroup to cur (group ++ rest) =
  (value_of (cur ++ group) :: fst (regroup to [] rest), snd (regroup to [] rest)).
Proof.
  revert cur. induction group as [|b group IH]; intros cur Hne H; [congruence|].
  cbn [app regroup]. cbn [List.length] in H.
  destruct (Nat.eqb_spec (List.length (cur ++ [b])) to) as [E|N].
  - rewrite length_app in E. cbn in E.
    assert (group = []) by (destruct group; [reflexivity|cbn in H; lia]).
    subst group. cbn [app]. destruct (regroup to [] rest). reflexivity.
  - rewrite length_app in N. cbn in N.
    rewrite IH.
    + rewrite <- app_assoc. reflexivity.
    + destruct group; [cbn in H; lia|discriminate].
    + rewrite length_app. cbn. lia.
Qed.

Lemma bits_of_length (width : nat) (v : Z) : List.length (bits_of width v) = width.
Proof. induction width; simpl; congruence. Qed.

(** Regrouping the bits of [values] at their own width gives them back,
    reduced to that width, and leaves a short tail untouched. *)
Lemma regroup_bits_of (width : nat) (values : list Z) (tail : list bool) :
  (0 < width)%nat -> (List.length tail < width)%nat ->
  regroup width [] (flat_map (bits_of width) values ++ tail) =
  (map (fun v => value_of (bits_of width v)) values, tail).
Proof.
  intros Hw Ht. induction values as [|v values IH].
  - cbn [flat_map app map]. apply regroup_short. cbn. lia.
  - cbn [flat_map map]. rewrite <- app_assoc, regroup_group, IH.
    + reflexivity.
    + intros E. apply (f_equal (@List.length bool)) in E.
      rewrite bits_of_length in E. cbn in E. lia.
    + rewrite bits_of_length. reflexivity.
Qed.

(** The complete groups and the rest hold the bits that were read. *)
Lemma regroup_bits (to : nat) (bits cur : list bool) :
  (List.length cur < to)%nat ->
  (forall group, List.length group = to -> bits_of to (value_of group) = group) ->
  flat_map (bits_of to) (fst (regroup to cur bits)) ++ snd (regroup to cur bits)
  = cur ++ bits
  /\ (List.length (snd (regroup to cur bits)) < to)%nat
  /\ Forall (fun v => 0 <= v < 2 ^ Z.of_nat to) (fst (regroup to cur bits)).
Proof.
  intros Hc Hinv. revert cur Hc.
  induction bits as [|b bits IH]; intros cur Hc; cbn [regroup].
  - cbn. rewrite app_nil_r. auto.
  - destruct (Nat.eqb_spec (List.length (cur ++ [b])) to) as [E|N].
    + destruct (IH [] ltac:(cbn; lia)) as (I1 & I2 & I3).
      destruct (regroup to [] bits) as [groups rest]. cbn [fst snd] in *.
      cbn [flat_map]. rewrite Hinv by assumption.
      rewrite <- !app_assoc, I1. cbn. split; [reflexivity|]. split; [assumption|].
      constructor; [|assumption]. rewrite <- E. apply value_of_range.
    + rewrite length_app in N. cbn in N.
      destruct (IH (cur ++ [b]) ltac:(rewrite length_app; cbn; lia)) as (I1 & I2 & I3).
      rewrite <- app_assoc in I1. auto.
Qed.

Lemma bits_of_value_of_5 (group : list bool) :
  List.length group = 5%nat -> bits_of 5 (value_of group) = group.
Proof.
  intros H.
  do 6 (destruct group as [|? group]; try discriminate H).
  repeat match goal with b : bool |- _ => destruct b end; reflexivity.
Qed.

Lemma value_of_bits_of_8 (b : Z) :
  0 <= b < 256 -> value_of (bits_of 8 b) = b.
Proof.
  intros Hb. apply Z.eqb_eq.
  exact (range_forallb (fun b => value_of (bits_of 8 b) =? b) 256 eq_refl b Hb).
Qed.

(** Bytes regrouped to 5-bit symbols without [strict], and back with it. *)
Lemma convertBits_roundtrip (bytes : list Z) :
  Forall byte bytes ->
  exists symbols,
    convertBits bytes 8 5 false = OK symbols /\
    Forall symbol symbols /\
    convertBits symbols 5 8 true = OK bytes.
Proof.
  intros Hb. unfold convertBits at 1.
  destruct (regroup_bits 5 (flat_map (bits_of 8) bytes) []
              ltac:(cbn; lia) bits_of_value_of_5) as (I1 & I2 & I3).
  destruct (regroup 5 [] (flat_map (bits_of 8) bytes)) as [groups rest].
  cbn [fst snd app] in *.
  assert (Hmap : map (fun v => value_of (bits_of 8 v)) bytes = bytes).
  { clear -Hb. induction Hb as [|b bytes H _ IH]; [reflexivity|].
    cbn [map]. rewrite IH, value_of_bits_of_8 by exact H. reflexivity. }
  destruct rest as [|r rest].
  - exists groups. split; [reflexivity|]. split; [exact I3|].
    unfold convertBits. rewrite <- (app_nil_r (flat_map _ groups)).
    rewrite app_nil_r in I1. rewrite I1.
    rewrite (regroup_bits_of 8 bytes []) by (cbn; lia).
    cbn [existsb]. rewrite Hmap. reflexivity.
  - set (pad := repeat false (5 - List.length (r :: rest))).
    exists (groups ++ [value_of ((r :: rest) ++ pad)]).
    assert (Hlen : List.length ((r :: rest) ++ pad) = 5%nat).
    { subst pad. rewrite length_app, repeat_length. lia. }
    split; [reflexivity|]. split.
    + apply Forall_app. split; [exact I3|]. constructor; [|constructor].
      unfold symbol. change 32 with (2 ^ Z.of_nat 5). rewrite <- Hlen.
      apply value_of_range.
    + unfold convertBits. rewrite flat_map_app. cbn [flat_map].
      rewrite bits_of_value_of_5, app_nil_r by exact Hlen.
      rewrite app_assoc, I1.
      rewrite (regroup_bits_of 8 bytes pad)
        by (try (subst pad; rewrite repeat_length); cbn [List.length]; lia).
      rewrite Hmap.
      assert (Hpad : existsb (fun b : bool => b) pad = false).
      { subst pad. generalize (5 - List.length (r :: rest))%nat.
        intros n. induction n; [reflexivity|exact IHn]. }
      rewrite Hpad. reflexivity.
Qed.

Lemma convertBits_length_21 (bytes symbols : list Z) :
  List.length bytes = 21%nat ->
  convertBits bytes 8 5 false = OK symbols -> List.length symbols = 34%nat.
Proof.
  intros Hl. unfold convertBits.
  destruct (regroup_bits 5 (flat_map (bits_of 8) bytes) []
              ltac:(cbn; lia) bits_of_value_of_5) as (I1 & I2 & _).
  destruct (regroup 5 [] (flat_map (bits_of 8) bytes)) as [groups rest].
  cbn [fst snd app] in *.
  apply (f_equal (@List.length bool)) in I1.
  rewrite length_app in I1.
  assert (F8 : forall l, List.length (flat_map (bits_of 8) l) = (8 * List.length l)%nat).
  { induction l; cbn [flat_map List.length]; [reflexivity|].
    rewrite length_app, bits_of_length. lia. }
  assert (F5 : forall l, List.length (flat_map (bits_of 5) l) = (5 * List.length l)%nat).
  { induction l; cbn [flat_map List.length]; [reflexivity|].
    rewrite length_app, bits_of_length. lia. }
  rewrite F8, F5, Hl in I1.
  destruct rest as [|r rest]; intros E; inversion E; subst.
  - cbn in I1. lia.
  - rewrite length_app. cbn [List.length] in *. lia.
Qed.

(** ** Strings *)

Lemma append_assoc (a b c : string) : ((a ++ b) ++ c = a ++ (b ++ c))%string.
Proof. induction a as [|x a IH]; cbn; [reflexivity|]. rewrite IH. reflexivity. Qed.

Lemma append_nil_r (a : string) : (a ++ "")%string = a.
Proof. induction a as [|x a IH]; cbn; [reflexivity|]. rewrite IH. reflexivity. Qed.

Lemma map_string_app (f : ascii -> ascii) (a b : string) :
  JS.map_string f (a ++ b) = (JS.map_string f a ++ JS.map_string f b)%string.
Proof. induction a as [|x a IH]; cbn; [reflexivity|]. rewrite IH. reflexivity. Qed.

Lemma split_from_colon_free (s cur : string) :
  colon_free s = true -> JS.split_from cur s = [(cur ++ s)%string].
Proof.
  revert cur. induction s as [|c s IH]; intros cur H; cbn in *.
  - rewrite append_nil_r. reflexivity.
  - apply andb_true_iff in H. destruct H as [Hc Hs].
    destruct (Ascii.eqb c ":"); [discriminate|].
    rewrite IH, append_assoc by assumption. reflexivity.
Qed.

Lemma split_from_app (p s cur : string) :
  colon_free p = true ->
  JS.split_from cur (p ++ String ":" s) =
  (cur ++ p)%string :: JS.split_from "" s.
Proof.
  revert cur. induction p as [|c p IH]; intros cur H; cbn in *.
  - rewrite append_nil_r. reflexivity.
  - apply andb_true_iff in H. destruct H as [Hc Hp].
    destruct (Ascii.eqb c ":"); [discriminate|].
    rewrite IH, append_assoc by assumption. reflexivity.
Qed.


Lemma lower_upper (c : ascii) : JS.lower_char (JS.upper_char c) = JS.lower_char c.
Proof. destruct c as [[] [] [] [] [] [] [] []]; reflexivity. Qed.

Lemma upper_upper (c : ascii) : JS.upper_char (JS.upper_char c) = JS.upper_char c.
Proof. destruct c as [[] [] [] [] [] [] [] []]; reflexivity. Qed.


Lemma toLowerCase_toUpperCase (s : string) :
  JS.toLowerCase (JS.toUpperCase s) = JS.toLowerCase s.
Proof. induction s; cbn; [reflexivity|]. rewrite lower_upper. f_equal. assumption. Qed.

Lemma toUpperCase_idem (s : string) :
  JS.toUpperCase (JS.toUpperCase s) = JS.toUpperCase s.
Proof. induction s; cbn; [reflexivity|]. rewrite upper_upper. f_equal. assumption. Qed.

Lemma hasSingleCase_lower (s : string) :
  JS.toLowerCase s = s -> hasSingleCase s = true.
Proof. intros H. unfold hasSingleCase. rewrite H, String.eqb_refl. reflexivity. Qed.

Lemma hasSingleCase_toUpperCase (s : string) :
  hasSingleCase (JS.toUpperCase s) = true.
Proof.
  unfold hasSingleCase. rewrite toUpperCase_idem, String.eqb_refl.
  apply orb_true_r.
Qed.

(** ** The alphabet *)

Lemma char_of_symbol_facts (v : Z) (c : ascii) :
  Base32.char_of_symbol v = Some c ->
  symbol v /\ Base32.symbol_of_char c = Some v /\ JS.lower_char c = c /\
  Ascii.eqb c ":" = false.
Proof.
  intros H. unfold Base32.char_of_symbol in H.
  destruct ((0 <=? v) && (v <? 32)) eqn:R; [|discriminate].
  apply andb_true_iff in R. destruct R as [L U].
  apply Z.leb_le in L. apply Z.ltb_lt in U.
  split; [unfold symbol; lia|].
  pose proof (range_forallb
    (fun v => match String.get (Z.to_nat v) Base32.CHARSET with
              | Some c => match Base32.symbol_of_char c with
                          | Some w => w =? v
                          | None => false
                          end && Ascii.eqb (JS.lower_char c) c &&
                          negb (Ascii.eqb c ":")
              | None => false
              end) 32 eq_refl v ltac:(lia)) as F.
  cbv beta in F. rewrite H in F.
  rewrite !andb_true_iff in F. destruct F as [[F1 F2] F3].
  destruct (Base32.symbol_of_char c) as [w|]; [|discriminate].
  apply Z.eqb_eq in F1. apply Ascii.eqb_eq in F2.
  apply negb_true_iff in F3. subst w. auto.
Qed.

Lemma index_from_range (s : string) (i : Z) (c : ascii) (v : Z) :
  Base32.index_from i c s = Some v -> i <= v < i + Z.of_nat (String.length s).
Proof.
  revert i. induction s as [|d s IH]; intros i H; cbn in H; [discriminate|].
  cbn [String.length]. rewrite Nat2Z.inj_succ.
  destruct (Ascii.eqb c d).
  - inversion H; subst. lia.
  - apply IH in H. lia.
Qed.

Lemma symbol_of_char_symbol (c : ascii) (v : Z) :
  Base32.symbol_of_char c = Some v -> symbol v.
Proof. intros H. apply index_from_range in H. exact H. Qed.

Lemma Base32_decode_cons (c : ascii) (s : string) :
  Base32.decode (String c s) =
  match Base32.symbol_of_char c with
  | None => Throw (InvalidCharacter c)
  | Some v => let* data := Base32.decode s in OK (v :: data)
  end.
Proof. reflexivity. Qed.

Lemma Base32_decode_symbols (s : string) (data : list Z) :
  Base32.decode s = OK data -> Forall symbol data.
Proof.
  revert data. induction s as [|c s IH]; intros data H.
  - inversion H. constructor.
  - rewrite Base32_decode_cons in H.
    destruct (Base32.symbol_of_char c) as [v|] eqn:E; [|discriminate].
    destruct (Base32.decode s) as [data'|]; [|discriminate].
    cbn in H. inversion H; subst.
    constructor; [eapply symbol_of_char_symbol; eassumption|auto].
Qed.

Lemma Base32_decode_length (s : string) (data : list Z) :
  Base32.decode s = OK data -> List.length data = String.length s.
Proof.
  revert data. induction s as [|c s IH]; intros data H.
  - inversion H. reflexivity.
  - rewrite Base32_decode_cons in H.
    destruct (Base32.symbol_of_char c) as [v|] eqn:E; [|discriminate].
    destruct (Base32.decode s) as [data'|]; [|discriminate].
    cbn in H. inversion H; subst. cbn. f_equal. auto.
Qed.

Lemma Base32_encode_decode (data : list Z) :
  Forall symbol data ->
  exists s, Base32.encode data = OK s /\ Base32.decode s = OK data /\
            JS.toLowerCase s = s /\ colon_free s = true.
Proof.
  induction 1 as [|v data Hv _ (s & E & D & L & C)].
  - exists EmptyString. repeat split.
  - assert (exists c, Base32.char_of_symbol v = Some c) as [c Hc].
    { unfold Base32.char_of_symbol. unfold symbol in Hv.
      destruct (Z.leb_spec 0 v); [|lia]. destruct (Z.ltb_spec v 32); [|lia].
      cbn [andb].
      destruct (String.get (Z.to_nat v) Base32.CHARSET) eqn:G; [eauto|].
      exfalso.
      pose proof (range_forallb
        (fun v => match String.get (Z.to_nat v) Base32.CHARSET with
                  | Some _ => true | None => false end) 32 eq_refl v ltac:(lia)) as F.
      cbv beta in F. rewrite G in F. discriminate. }
    destruct (char_of_symbol_facts v c Hc) as (_ & S & Lc & Cc).
    exists (String c s). rewrite Base32_decode_cons, S, D.
    cbn [Base32.encode JS.toLowerCase JS.map_string colon_free bind].
    rewrite Hc, E, Lc, Cc. cbn [bind negb andb].
    unfold JS.toLowerCase in L. rewrite L, C. repeat split.
Qed.

(** ** The stages of [decodeCashAddress] *)

Section Decode.

Context {registry : Registry}.

Lemma decodeCashAddress_prefixed (p s : string) :
  JS.truthy p = true -> colon_free p = true -> colon_free s = true ->
  JS.toLowerCase p = p -> JS.toLowerCase s = s ->
  decodeCashAddress (p ++ String ":" s) =
  let* payload := Base32.decode s in
  decode_checksum (p ++ String ":" s) (Some p) payload.
Proof.
  intros Tp Cp Cs Lp Ls.
  assert (L : JS.toLowerCase (p ++ String ":" s) = (p ++ String ":" s)%string).
  { unfold JS.toLowerCase in *. rewrite map_string_app. cbn [JS.map_string].
    rewrite Lp, Ls. reflexivity. }
  unfold decodeCashAddress.
  rewrite hasSingleCase_lower by exact L. cbn [checkArgument bind].
  rewrite L. unfold JS.split_colon.
  rewrite split_from_app, split_from_colon_free by assumption.
  cbn [List.length Nat.leb checkArgument bind append].
  rewrite Ls. reflexivity.
Qed.

Lemma decodeCashAddress_bare (s : string) :
  colon_free s = true -> JS.toLowerCase s = s ->
  decodeCashAddress s =
  let* payload := Base32.decode s in
  decode_checksum s None payload.
Proof.
  intros Cs Ls.
  unfold decodeCashAddress.
  rewrite hasSingleCase_lower by exact Ls. cbn [checkArgument bind].
  rewrite Ls. unfold JS.split_colon.
  rewrite split_from_colon_free by assumption.
  cbn [List.length Nat.leb checkArgument bind append].
  rewrite Ls. reflexivity.
Qed.

Lemma protocol_wellformed_facts (p : string) :
  protocol_wellformed p = true ->
  JS.truthy p = true /\ JS.toLowerCase p = p /\ colon_free p = true.
Proof.
  unfold protocol_wellformed. rewrite !andb_true_iff.
  intros [[T L] C]. apply String.eqb_eq in L. auto.
Qed.

Lemma protocolToArray_symbols (p : string) : Forall symbol (protocolToArray p).
Proof.
  unfold protocolToArray. induction (JS.charCodes p); constructor; [|assumption].
  unfold symbol. change 31 with (Z.ones 5). rewrite Z.land_ones by lia.
  apply Z.mod_pos_bound. lia.
Qed.

Lemma symbol_byte_version (ty : string) (tb : Z) :
  getTypeBits ty = OK tb -> (tb = 0 /\ ty = "pubkeyhash") \/ (tb = 8 /\ ty = "scripthash").
Proof.
  unfold getTypeBits.
  destruct (String.eqb_spec ty "pubkeyhash"); [intros E; inversion E; auto|].
  destruct (String.eqb_spec ty "scripthash"); [intros E; inversion E; auto|].
  discriminate.
Qed.

(** The encoding of an address with a 20-byte hash, in its stages. *)
Lemma toCashAddress_stages (hash : list Z) (ty : string) (net : Network) :
  List.length hash = 20%nat -> Forall byte hash ->
  ty = PayToPublicKeyHash \/ ty = PayToScriptHash ->
  exists versionByte symbols digits body,
    (versionByte = 0 /\ ty = PayToPublicKeyHash \/
     versionByte = 8 /\ ty = PayToScriptHash) /\
    List.length symbols = 34%nat /\ Forall symbol symbols /\
    convertBits symbols 5 8 true = OK (versionByte :: hash) /\
    List.length digits = 8%nat /\ Forall symbol digits /\
    validChecksum (protocol net) (symbols ++ digits) = true /\
    Base32.decode body = OK (symbols ++ digits) /\
    JS.toLowerCase body = body /\ colon_free body = true /\
    forall strip,
      toCashAddress {| hashBuffer := hash; network := net; type := ty |} strip =
      OK (if strip then body else (protocol net ++ String ":" body)%string).
Proof.
  intros Hlen Hbytes Hty.
  set (vb := if String.eqb ty PayToPublicKeyHash then 0 else 8).
  assert (Hvb : vb = 0 /\ ty = PayToPublicKeyHash \/ vb = 8 /\ ty = PayToScriptHash).
  { subst vb. destruct Hty; subst ty; cbn; auto. }
  assert (Hvbytes : Forall byte (vb :: hash)).
  { constructor; [|assumption]. unfold byte. destruct Hvb as [[-> _]|[-> _]]; lia. }
  destruct (convertBits_roundtrip (vb :: hash) Hvbytes) as (symbols & E1 & S1 & D1).
  assert (L1 : List.length symbols = 34%nat).
  { eapply convertBits_length_21; [|exact E1]. cbn. lia. }
  set (pre := protocolToArray (protocol net) ++ [0]).
  set (digits := checksumToArray (polymod (pre ++ symbols ++ [0; 0; 0; 0; 0; 0; 0; 0]))).
  assert (Hpre : Forall symbol pre).
  { subst pre. apply Forall_app. split; [apply protocolToArray_symbols|].
    repeat constructor; unfold symbol; lia. }
  assert (Hdig : Forall symbol digits).
  { subst digits. unfold checksumToArray. apply Forall_rev, checksum_digits_symbols. }
  assert (Ldig : List.length digits = 8%nat).
  { subst digits. unfold checksumToArray.
    rewrite length_rev, checksum_digits_length. reflexivity. }
  destruct (Base32_encode_decode (symbols ++ digits)) as (body & E2 & D2 & Lb & Cb).
  { apply Forall_app. auto. }
  exists vb, symbols, digits, body.
  repeat (split; [assumption|]).
  split.
  { unfold validChecksum. fold pre. apply Z.eqb_eq.
    rewrite app_assoc. subst digits. rewrite (app_assoc pre symbols).
    apply polymod_checksum. apply Forall_app. auto. }
  repeat (split; [assumption|]).
  intros strip. unfold toCashAddress. cbn [hashBuffer network type].
  assert (Tb : getTypeBits ty = OK vb).
  { subst vb. destruct Hty; subst ty; reflexivity. }
  rewrite Tb. cbn [bind]. unfold getHashSizeBits. rewrite Hlen.
  cbn [bind Z.of_nat Pos.of_succ_nat Pos.succ Z.mul Pos.mul Pos.add].
  rewrite Z.add_0_r, E1. cbn [bind]. fold pre. fold digits.
  rewrite E2. cbn [bind]. destruct strip; reflexivity.
Qed.

Lemma slice_0_m8_app (symbols digits : list Z) :
  List.length digits = 8%nat -> slice_0_m8 (symbols ++ digits) = symbols.
Proof.
  intros H. unfold slice_0_m8. rewrite length_app, H.
  replace (List.length symbols + 8 - 8)%nat with (List.length symbols + 0)%nat by lia.
  rewrite firstn_app_2. cbn. apply app_nil_r.
Qed.

Lemma decode_payload_encoded (address : string) (p : string) (hash symbols digits : list Z)
  (versionByte : Z) (ty : string) :
  (versionByte = 0 /\ ty = PayToPublicKeyHash \/
   versionByte = 8 /\ ty = PayToScriptHash) ->
  List.length hash = 20%nat -> List.length digits = 8%nat ->
  convertBits symbols 5 8 true = OK (versionByte :: hash) ->
  decode_payload address (Some p) (symbols ++ digits) =
  OK {| info_hashBuffer := hash; info_network := Networks_get (NetStr p);
        info_type := Some ty |}.
Proof.
  intros Hvb Hlen Ld Hc. unfold decode_payload.
  rewrite slice_0_m8_app, Hc by assumption.
  cbn [bind hd_error tl]. rewrite Hlen.
  destruct Hvb as [[-> ->]|[-> ->]]; reflexivity.
Qed.

End Decode.

(** ** Inversion of the error monad *)

Lemma bind_OK {A B : Type} (r : result A) (k : A -> result B) (v : B) :
  bind r k = OK v -> exists x, r = OK x /\ k x = OK v.
Proof. destruct r as [x|e]; cbn; [eauto|discriminate]. Qed.

Lemma checkArgument_OK (condition : bool) (message : string) (u : unit) :
  checkArgument condition message = OK u -> condition = true.
Proof. destruct condition; [reflexivity|discriminate]. Qed.

(** ** C1: round trip *)

Section RoundTrip.

Context {registry : Registry}.

(** C1. For every 20-byte hash, either type and every registered network,
    [toCashAddress] returns a text, and [decodeCashAddress] of that text
    returns the same hash bytes, the same type and the same network. *)
Theorem cashaddr_roundtrip (hash : list Z) (ty : string) (net : Network) :
  List.length hash = 20%nat -> Forall byte hash ->
  ty = PayToPublicKeyHash \/ ty = PayToScriptHash ->
  registered net ->
  exists text,
    toCashAddress {| hashBuffer := hash; network := net; type := ty |} false
    = OK text /\
    decodeCashAddress text =
    OK {| info_hashBuffer := hash; info_network := Some net;
          info_type := Some ty |}.
Proof.
  intros Hlen Hbytes Hty [Hwf Hget].
  destruct (protocol_wellformed_facts _ Hwf) as (Tp & Lp & Cp).
  destruct (toCashAddress_stages hash ty net Hlen Hbytes Hty)
    as (vb & symbols & digits & body & Hvb & _ & _ & Hc & Ld & _ & Hv & Hd & Lb & Cb & He).
  exists (protocol net ++ String ":" body)%string. split; [apply (He false)|].
  rewrite decodeCashAddress_prefixed, Hd by assumption.
  cbn [bind]. unfold decode_checksum. cbn [opt_truthy].
  rewrite Tp, Hv. cbn [checkArgument bind].
  rewrite (decode_payload_encoded _ _ hash symbols digits vb ty) by assumption.
  rewrite Hget. reflexivity.
Qed.

End RoundTrip.

(** ** Inversion of [decodeCashAddress] *)

Section Inversion.

Context {registry : Registry}.

Lemma decodeCashAddress_unfold (address : string) :
  decodeCashAddress address =
  let* _ := checkArgument (hasSingleCase address) "Mixed case" in
  let* _ := checkArgument
              (List.length (JS.split_colon (JS.toLowerCase address)) <=? 2)%nat
              ("Invalid format:" ++ JS.toLowerCase address) in
  let* payload := Base32.decode (payload_text address) in
  decode_checksum (JS.toLowerCase address) (protocol_text address) payload.
Proof.
  unfold decodeCashAddress, payload_text, protocol_text, decode_checksum,
    decode_payload.
  destruct (checkArgument (hasSingleCase address) "Mixed case"); [|reflexivity].
  cbn [bind].
  destruct (checkArgument _ _); [|reflexivity]. cbn [bind].
  destruct (JS.split_colon (JS.toLowerCase address)) as [|p0 [|p1 [|p2 rest]]];
    reflexivity.
Qed.

Lemma decode_payload_OK (address : string) (proto : option string)
  (payload : list Z) (info : Info) :
  decode_payload address proto payload = OK info ->
  exists versionByte,
    convertBits (slice_0_m8 payload) 5 8 true
    = OK (versionByte :: info_hashBuffer info) /\
    getHashSize (Some versionByte)
    = Some (Z.of_nat (List.length (info_hashBuffer info)) * 8) /\
    (exists ty, getType (Some versionByte) = OK ty /\ info_type info = Some ty) /\
    info_network info =
    match proto with Some p => Networks_get (NetStr p) | None => None end.
Proof.
  unfold decode_payload. intros H.
  apply bind_OK in H. destruct H as (bits & Hc & H).
  apply bind_OK in H. destruct H as ([] & Hs & H).
  apply bind_OK in H. destruct H as (ty & Ht & H).
  apply checkArgument_OK in Hs.
  inversion H; subst; clear H. cbn [info_hashBuffer info_type info_network].
  destruct bits as [|vb hash]; [discriminate Hs|].
  cbn [hd_error tl] in *. exists vb. split; [assumption|]. split; [|eauto].
  destruct (getHashSize (Some vb)) as [size|]; [|discriminate].
  apply Z.eqb_eq in Hs. congruence.
Qed.


End Inversion.

(** ** C2: the version byte *)

Lemma getHashSize_table (versionByte size : Z) :
  getHashSize (Some versionByte) = Some size ->
  nth_error hash_sizes (Z.to_nat (Z.land versionByte 7)) = Some size.
Proof.
  unfold getHashSize, hash_sizes. cbn [toInt32].
  assert (R : 0 <= Z.land versionByte 7 < 8).
  { change 7 with (Z.ones 3). rewrite Z.land_ones by lia.
    apply Z.mod_pos_bound. lia. }
  destruct (Z.land versionByte 7) as [|p|p]; [auto| |lia].
  do 3 (destruct p as [p|p|]; try lia; auto).
Qed.

Lemma getType_cases (versionByte : Z) (ty : string) :
  getType (Some versionByte) = OK ty ->
  Z.land versionByte 0x78 = 0 /\ ty = PayToPublicKeyHash \/
  Z.land versionByte 0x78 = 8 /\ ty = PayToScriptHash.
Proof.
  unfold getType. cbn [toInt32].
  destruct (Z.land versionByte 120) as [|p|p]; [intros H; inversion H; auto| |discriminate].
  do 4 (destruct p as [p|p|]; try discriminate).
  intros H; inversion H; auto.
Qed.

Section VersionByte.

Context {registry : Registry}.

Lemma decodeCashAddress_version (address : string) (info : Info) :
  decodeCashAddress address = OK info ->
  exists payload versionByte,
    Base32.decode (payload_text address) = OK payload /\
    convertBits (slice_0_m8 payload) 5 8 true
    = OK (versionByte :: info_hashBuffer info) /\
    (Z.land versionByte 0x78 = 0 /\ info_type info = Some PayToPublicKeyHash \/
     Z.land versionByte 0x78 = 8 /\ info_type info = Some PayToScriptHash) /\
    nth_error [160; 192; 224; 256; 320; 384; 448; 512]
      (Z.to_nat (Z.land versionByte 7))
    = Some (Z.of_nat (List.length (info_hashBuffer info)) * 8).
Proof.
  rewrite decodeCashAddress_unfold. intros H.
  apply bind_OK in H. destruct H as (_ & _ & H).
  apply bind_OK in H. destruct H as (_ & _ & H).
  apply bind_OK in H. destruct H as (payload & Hp & H).
  unfold decode_checksum in H.
  apply bind_OK in H. destruct H as (proto & _ & H).
  apply decode_payload_OK in H.
  destruct H as (vb & Hc & Hs & (ty & Ht & Hty) & _).
  exists payload, vb. split; [assumption|]. split; [assumption|]. split.
  - rewrite Hty. destruct (getType_cases vb ty Ht) as [[? ->]|[? ->]]; auto.
  - apply getHashSize_table. assumption.
Qed.



End VersionByte.

(** ** C8: case *)

Section Case.

Context {registry : Registry}.

(** C8. A lower-case text that decodes also decodes in upper case, to the
    same hash, network and type; and a text that is neither all lower case
    nor all upper case is rejected as mixed case, whatever its checksum. *)
Theorem case_invariance :
  (forall (s : string) (info : Info),
      JS.toLowerCase s = s -> decodeCashAddress s = OK info ->
      decodeCashAddress (JS.toUpperCase s) = OK info) /\
  (forall s : string,
      hasSingleCase s = false ->
      decodeCashAddress s = Throw (InvalidArgument "Mixed case")).
Proof.
  split.
  - intros s info Hl Hd. rewrite <- Hd.
    unfold decodeCashAddress.
    rewrite hasSingleCase_toUpperCase, hasSingleCase_lower by assumption.
    rewrite toLowerCase_toUpperCase. reflexivity.
  - intros s H. unfold decodeCashAddress. rewrite H. reflexivity.
Qed.

End Case.

(** ** More on strings *)

Lemma split_from_length (s cur : string) :
  List.length (JS.split_from cur s) = S (colons s).
Proof.
  revert cur. induction s as [|c s IH]; intros cur; cbn; [reflexivity|].
  destruct (Ascii.eqb c ":"); cbn; rewrite IH; reflexivity.
Qed.

Lemma colons_app (a b : string) : colons (a ++ b) = (colons a + colons b)%nat.
Proof.
  induction a as [|c a IH]; cbn; [reflexivity|].
  destruct (Ascii.eqb c ":"); rewrite IH; reflexivity.
Qed.

Lemma colons_0 (s : string) : colons s = O -> colon_free s = true.
Proof.
  induction s as [|c s IH]; cbn; [reflexivity|].
  destruct (Ascii.eqb c ":"); [discriminate|]. exact IH.
Qed.

Lemma colon_free_app (a b : string) :
  colon_free (a ++ b) = colon_free a && colon_free b.
Proof.
  induction a as [|c a IH]; cbn; [reflexivity|].
  rewrite IH, andb_assoc. reflexivity.
Qed.

Lemma lower_char_colon (c : ascii) :
  Ascii.eqb (JS.lower_char c) ":" = Ascii.eqb c ":".
Proof. destruct c as [[] [] [] [] [] [] [] []]; reflexivity. Qed.

Lemma colons_toLowerCase (s : string) : colons (JS.toLowerCase s) = colons s.
Proof.
  induction s as [|c s IH]; cbn; [reflexivity|].
  rewrite lower_char_colon. unfold JS.toLowerCase in IH. rewrite IH. reflexivity.
Qed.

Lemma map_string_length (f : ascii -> ascii) (s : string) :
  String.length (JS.map_string f s) = String.length s.
Proof. induction s; cbn; congruence. Qed.

Lemma append_inj (a a' b b' : string) :
  String.length a = String.length a' ->
  (a ++ b = a' ++ b')%string -> a = a' /\ b = b'.
Proof.
  revert a'. induction a as [|c a IH]; intros [|c' a'] L E; try discriminate L.
  - auto.
  - cbn in L, E. inversion E; subst.
    destruct (IH a') as [-> ->]; [congruence|assumption|auto].
Qed.

Lemma String_inj_tail (c c' : ascii) (s s' : string) :
  String c s = String c' s' -> s = s'.
Proof. intros H. inversion H. reflexivity. Qed.


(** ** More on the alphabet *)

Lemma index_from_get (s : string) (i : Z) (c : ascii) (v : Z) :
  Base32.index_from i c s = Some v -> String.get (Z.to_nat (v - i)) s = Some c.
Proof.
  revert i. induction s as [|d s IH]; intros i H; cbn in H; [discriminate|].
  destruct (Ascii.eqb_spec c d) as [->|N].
  - inversion H; subst. replace (v - v) with 0 by lia. reflexivity.
  - pose proof (index_from_range _ _ _ _ H) as R.
    apply IH in H.
    replace (Z.to_nat (v - i)) with (S (Z.to_nat (v - (i + 1)))) by lia.
    exact H.
Qed.

Lemma symbol_of_char_inv (c : ascii) (v : Z) :
  Base32.symbol_of_char c = Some v -> Base32.char_of_symbol v = Some c.
Proof.
  intros H. pose proof (symbol_of_char_symbol c v H) as R. unfold symbol in R.
  apply index_from_get in H. rewrite Z.sub_0_r in H.
  unfold Base32.char_of_symbol.
  destruct (Z.leb_spec 0 v); [|lia]. destruct (Z.ltb_spec v 32); [|lia].
  exact H.
Qed.

Lemma Base32_decode_app (s1 s2 : string) (data : list Z) :
  Base32.decode (s1 ++ s2) = OK data ->
  exists l1 l2, data = l1 ++ l2 /\ Base32.decode s1 = OK l1 /\
                Base32.decode s2 = OK l2.
Proof.
  revert data. induction s1 as [|c s1 IH]; intros data H.
  - exists [], data. auto.
  - cbn [append] in H. rewrite Base32_decode_cons in *.
    destruct (Base32.symbol_of_char c) as [v|]; [|discriminate].
    apply bind_OK in H. destruct H as (data' & H & E). inversion E; subst.
    destruct (IH data' H) as (l1 & l2 & -> & H1 & H2).
    exists (v :: l1), l2. rewrite H1. auto.
Qed.

Lemma Base32_decode_app_OK (s1 s2 : string) (l1 l2 : list Z) :
  Base32.decode s1 = OK l1 -> Base32.decode s2 = OK l2 ->
  Base32.decode (s1 ++ s2) = OK (l1 ++ l2).
Proof.
  revert l1. induction s1 as [|c s1 IH]; intros l1 H1 H2.
  - inversion H1. exact H2.
  - cbn [append]. rewrite Base32_decode_cons in *.
    destruct (Base32.symbol_of_char c) as [v|]; [|discriminate].
    apply bind_OK in H1. destruct H1 as (data' & H & E). inversion E; subst.
    rewrite (IH data' H H2). reflexivity.
Qed.

(** ** Checksums of different payloads and of different protocols *)

Lemma prefix_state_state (p : string) : state (prefix_state p).
Proof.
  unfold prefix_state. apply fold_polymod_step_state; [unfold state; lia|].
  apply Forall_app. split; [apply protocolToArray_symbols|].
  repeat constructor; unfold symbol; lia.
Qed.

Lemma validChecksum_prefix_state (p : string) (payload : list Z) :
  validChecksum p payload =
  (Z.lxor (fold_left polymod_step payload (prefix_state p)) 1 =? 0).
Proof. unfold validChecksum, polymod, prefix_state. rewrite fold_left_app. reflexivity. Qed.

Lemma lxor_1_eq_0 (x : Z) : Z.lxor x 1 = 0 -> x = 1.
Proof. intros H. apply Z.lxor_eq in H. exact H. Qed.

(** A payload is valid for two protocols only if their checksums start
    from the same state. *)
Lemma validChecksum_same_state (p q : string) (payload : list Z) :
  Forall symbol payload ->
  validChecksum p payload = true -> validChecksum q payload = true ->
  prefix_state p = prefix_state q.
Proof.
  rewrite !validChecksum_prefix_state. intros Hs Hp Hq.
  apply Z.eqb_eq, lxor_1_eq_0 in Hp. apply Z.eqb_eq, lxor_1_eq_0 in Hq.
  apply (fold_polymod_step_inj payload); auto using prefix_state_state.
  congruence.
Qed.

(** One substituted symbol invalidates a valid payload. *)
Lemma validChecksum_substitution (p : string) (l1 l2 : list Z) (v0 v : Z) :
  Forall symbol l1 -> Forall symbol l2 -> symbol v0 -> symbol v -> v <> v0 ->
  validChecksum p (l1 ++ v0 :: l2) = true ->
  validChecksum p (l1 ++ v :: l2) = false.
Proof.
  rewrite !validChecksum_prefix_state, !fold_left_app. cbn [fold_left].
  intros H1 H2 S0 S N V.
  apply Z.eqb_eq, lxor_1_eq_0 in V.
  apply Z.eqb_neq. intros V'. apply lxor_1_eq_0 in V'. apply N.
  set (c := fold_left polymod_step l1 (prefix_state p)) in *.
  assert (Hc : state c)
    by (apply fold_polymod_step_state; auto using prefix_state_state).
  apply (polymod_step_symbol_inj c).
  apply (fold_polymod_step_inj l2); auto using polymod_step_state.
  congruence.
Qed.

(** ** C3: prefix inference *)

Section PrefixInference.

Context {registry : Registry}.

Lemma decode_checksum_prefixed_OK (address p : string) (payload : list Z)
  (info : Info) :
  JS.truthy p = true ->
  decode_checksum address (Some p) payload = OK info ->
  validChecksum p payload = true /\
  decode_payload address (Some p) payload = OK info.
Proof.
  intros Tp. unfold decode_checksum. cbn [opt_truthy]. rewrite Tp.
  destruct (validChecksum p payload); [auto|discriminate].
Qed.


Lemma infer_protocol_find (nl nt nr : Network) (payload : list Z) :
  Networks_get (NetStr "livenet") = Some nl ->
  Networks_get (NetStr "testnet") = Some nt ->
  Networks_get (NetStr "regtest") = Some nr ->
  JS.truthy (protocol nl) = true -> JS.truthy (protocol nt) = true ->
  JS.truthy (protocol nr) = true ->
  infer_protocol None ["livenet"; "testnet"; "regtest"] payload =
  OK (find (fun p => validChecksum p payload)
        [protocol nl; protocol nt; protocol nr]).
Proof.
  intros Gl Gt Gr Tl Tt Tr. cbn [infer_protocol opt_truthy find].
  rewrite Gl, Gt, Gr.
  destruct (validChecksum (protocol nl) payload); cbn [opt_truthy];
    rewrite ?Tl; [reflexivity|].
  destruct (validChecksum (protocol nt) payload); cbn [opt_truthy];
    rewrite ?Tt; [reflexivity|].
  destruct (validChecksum (protocol nr) payload); cbn [opt_truthy];
    rewrite ?Tr; reflexivity.
Qed.


End PrefixInference.

(** ** The classifier *)

Lemma Network_eqb_refl (n : Network) : Network_eqb n n = true.
Proof.
  unfold Network_eqb. rewrite !String.eqb_refl, !Z.eqb_refl. reflexivity.
Qed.

Lemma Network_eqb_name (n m : Network) :
  name n <> name m -> Network_eqb n m = false.
Proof.
  intros H. unfold Network_eqb.
  destruct (String.eqb_spec (name n) (name m)); [contradiction|reflexivity].
Qed.

Section Classifier.

Context {registry : Registry} {collaborators : Collaborators}.

Lemma decodeCashAddress_type (address : string) (info : Info) :
  decodeCashAddress address = OK info ->
  info_type info = Some PayToPublicKeyHash \/
  info_type info = Some PayToScriptHash.
Proof.
  intros H. destruct (decodeCashAddress_version address info H)
    as (_ & _ & _ & _ & [[_ T]|[_ T]] & _); auto.
Qed.

(** C5, as amended. For a 21-byte buffer and for a text, which determine a
    network and a type: the constructor fails with the network-mismatch
    error when the network argument names a network of another name, and
    with the type-mismatch error when the network is not in question and
    the type argument is the other type. For a structured record the
    arguments are not compared: the constructor returns what it returns
    without them. *)
Theorem explicit_arguments_cross_checked (network : option NetArg)
  (type : option string) :
  type_argument_ok type ->
  (forall data derivedNetwork derivedType arg n,
      derived data = Some (derivedNetwork, derivedType) ->
      network = Some arg -> NetArg_truthy arg = true ->
      Networks_get arg = Some n -> name n <> name derivedNetwork ->
      Address_new data network type =
      Throw (TypeError "Address has mismatched network type.")) /\
  (forall data derivedNetwork derivedType t,
      derived data = Some (derivedNetwork, derivedType) ->
      network = None \/
      (exists arg, network = Some arg /\ NetArg_truthy arg = true /\
                   Networks_get arg = Some derivedNetwork) ->
      type = Some t -> t <> derivedType ->
      Address_new data network type =
      Throw (TypeError "Address has mismatched type.")) /\
  (forall obj,
      network_argument_ok network ->
      Address_new (DObject obj) network type =
      Address_new (DObject obj) None None).
Proof.
  intros Hty.
  assert (Tok : opt_truthy
                  (fun t => JS.truthy t && negb (String.eqb t PayToPublicKeyHash)
                            && negb (String.eqb t PayToScriptHash)) type = false).
  { destruct Hty as [->|[->| ->]]; reflexivity. }
  split; [|split].
  - intros data derivedNetwork derivedType arg n Hd -> Ta Ga Hname.
    destruct data as [| |buffer| | |str| | |]; try discriminate Hd.
    + (* a buffer *)
      cbn [derived] in Hd.
      destruct (Nat.eqb_spec (List.length buffer) 21) as [L|]; [|discriminate].
      destruct (_classifyFromVersion buffer) as [[vn|] [vt|]] eqn:C;
        try discriminate. inversion Hd; subst vn vt; clear Hd.
      unfold Address_new.
      assert (E : Address_of (DBuffer buffer) (Some arg) type =
                  Throw (TypeError "Address has mismatched network type.")).
      { unfold Address_of. cbn [Data_truthy checkArgument bind opt_truthy Networks_get_opt].
        rewrite Ta, Ga, Tok. cbn [opt_truthy negb andb].
        unfold _classifyArguments. rewrite L. cbn [Nat.eqb].
        unfold _transformBuffer. rewrite L. cbn [Nat.add Nat.eqb negb].
        rewrite C. cbn [opt_truthy Networks_get_opt fst snd].
        rewrite Ta, Ga, Network_eqb_name by assumption. reflexivity. }
      destruct arg; exact E.
    + (* a text *)
      cbn [derived] in Hd.
      destruct ((34 <=? String.length str)%nat &&
                (35 <? String.length (JS.trim str))%nat) eqn:Len; [|discriminate].
      apply andb_true_iff in Len. destruct Len as [L34 L35].
      destruct (decodeCashAddress (JS.trim str)) as [info|] eqn:D; [|discriminate].
      destruct (info_network info) as [vn|] eqn:Nn; [|discriminate].
      destruct (info_type info) as [vt|] eqn:Nt; [|discriminate].
      inversion Hd; subst vn vt; clear Hd.
      assert (Tr : JS.truthy str = true).
      { destruct str; [discriminate L34|reflexivity]. }
      assert (E : Address_of (DString str) (Some arg) type =
                  Throw (TypeError "Address has mismatched network type.")).
      { unfold Address_of. cbn [Data_truthy]. rewrite Tr.
        cbn [checkArgument bind opt_truthy Networks_get_opt].
        rewrite Ta, Ga, Tok. cbn [opt_truthy negb andb].
        unfold _classifyArguments, _transformString.
        apply Nat.leb_le in L34.
        destruct (Nat.ltb_spec (String.length str) 34); [lia|].
        cbn [opt_truthy Networks_get_opt]. rewrite Ta, Ga. cbn [opt_truthy negb andb].
        rewrite L35, D. cbn [bind]. rewrite Nn.
        destruct (String.eqb_spec (name n) (name derivedNetwork)); [contradiction|].
        reflexivity. }
      destruct arg; exact E.
  - intros data derivedNetwork derivedType t Hd Hnet -> Ht.
    assert (Tt : JS.truthy t = true).
    { destruct Hty as [H|[H|H]]; inversion H; reflexivity. }
    assert (Nok : opt_truthy NetArg_truthy network &&
                  negb (opt_truthy (fun _ => true) (Networks_get_opt network)) = false).
    { destruct Hnet as [->|(arg & -> & Ta & Ga)]; [reflexivity|].
      cbn [opt_truthy Networks_get_opt]. rewrite Ta, Ga. reflexivity. }
    destruct data as [| |buffer| | |str| | |]; try discriminate Hd.
    + cbn [derived] in Hd.
      destruct (Nat.eqb_spec (List.length buffer) 21) as [L|]; [|discriminate].
      destruct (_classifyFromVersion buffer) as [[vn|] [vt|]] eqn:C;
        try discriminate. inversion Hd; subst vn vt; clear Hd.
      assert (E : Address_of (DBuffer buffer) network (Some t) =
                  Throw (TypeError "Address has mismatched type.")).
      { unfold Address_of. cbn [Data_truthy checkArgument bind].
        rewrite Nok, Tok.
        unfold _classifyArguments. rewrite L. cbn [Nat.eqb].
        unfold _transformBuffer. rewrite L. cbn [Nat.add Nat.eqb negb].
        rewrite C. cbn [fst snd].
        assert (N : (if opt_truthy NetArg_truthy network
                     then match Networks_get_opt network with
                          | Some network0 =>
                              if negb (Network_eqb network0 derivedNetwork)
                              then Throw (TypeError "Address has mismatched network type.")
                              else OK tt
                          | None => Throw (TypeError "Unknown network")
                          end
                     else OK tt) = OK tt).
        { destruct Hnet as [->|(arg & -> & Ta & Ga)]; [reflexivity|].
          cbn [opt_truthy Networks_get_opt]. rewrite Ta, Ga, Network_eqb_refl.
          reflexivity. }
        rewrite N. cbn [bind opt_truthy]. rewrite Tt.
        destruct (String.eqb_spec t derivedType); [contradiction|]. reflexivity. }
      unfold Address_new.
      destruct Hnet as [->|(arg & -> & _)]; [exact E|]. destruct arg; exact E.
    + cbn [derived] in Hd.
      destruct ((34 <=? String.length str)%nat &&
                (35 <? String.length (JS.trim str))%nat) eqn:Len; [|discriminate].
      apply andb_true_iff in Len. destruct Len as [L34 L35].
      destruct (decodeCashAddress (JS.trim str)) as [info|] eqn:D; [|discriminate].
      destruct (info_network info) as [vn|] eqn:Nn; [|discriminate].
      destruct (info_type info) as [vt|] eqn:Nt; [|discriminate].
      inversion Hd; subst vn vt; clear Hd.
      assert (Tr : JS.truthy str = true).
      { destruct str; [discriminate L34|reflexivity]. }
      assert (E : Address_of (DString str) network (Some t) =
                  Throw (TypeError "Address has mismatched type.")).
      { unfold Address_of. cbn [Data_truthy]. rewrite Tr.
        cbn [checkArgument bind]. rewrite Nok, Tok.
        unfold _classifyArguments, _transformString.
        apply Nat.leb_le in L34.
        destruct (Nat.ltb_spec (String.length str) 34); [lia|].
        rewrite Nok, L35, D. cbn [bind]. rewrite Nn, Nt.
        assert (N : opt_truthy
                      (fun n => negb (String.eqb (name n) (name derivedNetwork)))
                      (Networks_get_opt network) = false).
        { destruct Hnet as [->|(arg & -> & Ta & Ga)]; [reflexivity|].
          cbn [Networks_get_opt]. rewrite Ga. cbn [opt_truthy].
          rewrite String.eqb_refl. reflexivity. }
        rewrite N. cbn [opt_truthy]. rewrite Tt.
        destruct (String.eqb_spec t derivedType); [contradiction|].
        cbn [negb andb]. rewrite andb_false_r. reflexivity. }
      unfold Address_new.
      destruct Hnet as [->|(arg & -> & _)]; [exact E|]. destruct arg; exact E.
  - intros obj Hnet.
    assert (Nok : opt_truthy NetArg_truthy network &&
                  negb (opt_truthy (fun _ => true) (Networks_get_opt network)) = false).
    { unfold network_argument_ok in Hnet.
      destruct (opt_truthy NetArg_truthy network); [|reflexivity].
      destruct (Networks_get_opt network); [reflexivity|].
      exfalso. apply Hnet; reflexivity. }
    assert (E : Address_of (DObject obj) network type =
                Address_of (DObject obj) None None).
    { unfold Address_of. cbn [Data_truthy checkArgument bind].
      rewrite Nok, Tok. cbn [opt_truthy andb].
      unfold _classifyArguments, _transformObject.
      destruct (checkArgument _ "Must provide a `hash` or `hashBuffer` property");
        [|reflexivity].
      cbn [bind].
      destruct (data_type obj) as [dt|]; [|reflexivity].
      cbn [opt_truthy]. destruct (JS.truthy dt) eqn:Td; [|reflexivity].
      cbn [checkArgument bind info_network info_type info_hashBuffer or_network].
      unfold or_string. cbn [opt_truthy]. rewrite Td. reflexivity. }
    unfold Address_new. destruct network as [[]|]; exact E.
Qed.

(** C6, as amended. A text shorter than 34 characters fails with the
    invalid-address-string error. A longer text fails with the
    unknown-network error when the network argument names no network;
    otherwise it is decoded as CashAddr text when it has more than 35
    characters after trimming, and it fails with the
    invalid-address-string error when it has at most 35, with no attempt
    to decode it in another way. *)
Theorem string_length_classes (data : string) (network : option NetArg)
  (type : option string) :
  ((String.length data < 34)%nat ->
   _transformString data network type =
   Throw (Error "Invalid Address string provided")) /\
  ((34 <= String.length data)%nat ->
   opt_truthy NetArg_truthy network = true ->
   Networks_get_opt network = None ->
   _transformString data network type = Throw (TypeError "Unknown network")) /\
  ((34 <= String.length data)%nat -> network_argument_ok network ->
   (String.length (JS.trim data) <= 35)%nat ->
   _transformString data network type =
   Throw (Error "Invalid Address string provided")) /\
  ((34 <= String.length data)%nat -> network_argument_ok network ->
   (35 < String.length (JS.trim data))%nat ->
   (forall e, decodeCashAddress (JS.trim data) = Throw e ->
              _transformString data network type = Throw e) /\
   (forall info n, decodeCashAddress (JS.trim data) = OK info ->
                   info_network info = Some n ->
                   _transformString data None None = OK info)).
Proof.
  assert (Nok : network_argument_ok network ->
                opt_truthy NetArg_truthy network &&
                negb (opt_truthy (fun _ => true) (Networks_get_opt network)) = false).
  { unfold network_argument_ok. intros Hnet.
    destruct (opt_truthy NetArg_truthy network); [|reflexivity].
    destruct (Networks_get_opt network); [reflexivity|].
    exfalso. apply Hnet; reflexivity. }
  unfold _transformString. split; [|split; [|split]].
  - intros L. destruct (Nat.ltb_spec (String.length data) 34); [reflexivity|lia].
  - intros L34 T G.
    destruct (Nat.ltb_spec (String.length data) 34); [lia|].
    rewrite T, G. reflexivity.
  - intros L34 Hnet L35.
    destruct (Nat.ltb_spec (String.length data) 34); [lia|].
    rewrite (Nok Hnet).
    destruct (Nat.ltb_spec 35 (String.length (JS.trim data))); [lia|reflexivity].
  - intros L34 Hnet L35.
    destruct (Nat.ltb_spec (String.length data) 34); [lia|].
    destruct (Nat.ltb_spec 35 (String.length (JS.trim data))); [|lia].
    split.
    + intros e D. rewrite (Nok Hnet), D. reflexivity.
    + intros info n D Nn. cbn [opt_truthy Networks_get_opt andb].
      rewrite D. cbn [bind]. rewrite Nn. cbn [opt_truthy].
      destruct (decodeCashAddress_type _ _ D) as [T|T]; rewrite T; reflexivity.
Qed.

(** C7, as amended. The version byte of a 21-byte buffer is looked up as
    a pubkeyhash prefix and as a scripthash prefix; the first match gives
    the network and the type. When neither matches, decoding fails with
    the errors of a mismatch: the network-mismatch error when a known
    network is supplied, the type-mismatch error when none is. *)
Theorem version_byte_lookup (versionByte : Z) (hash : list Z)
  (network : option NetArg) (type : option string) :
  List.length hash = 20%nat ->
  (forall n, Networks_get_key versionByte key_prefix_pubkeyhash = Some n ->
             _transformBuffer (versionByte :: hash) None None =
             OK {| info_hashBuffer := hash; info_network := Some n;
                   info_type := Some PayToPublicKeyHash |}) /\
  (forall n, Networks_get_key versionByte key_prefix_pubkeyhash = None ->
             Networks_get_key versionByte key_prefix_scripthash = Some n ->
             _transformBuffer (versionByte :: hash) None None =
             OK {| info_hashBuffer := hash; info_network := Some n;
                   info_type := Some PayToScriptHash |}) /\
  (Networks_get_key versionByte key_prefix_pubkeyhash = None ->
   Networks_get_key versionByte key_prefix_scripthash = None ->
   _transformBuffer (versionByte :: hash) network type =
   if opt_truthy NetArg_truthy network then
     match Networks_get_opt network with
     | Some _ => Throw (TypeError "Address has mismatched network type.")
     | None => Throw (TypeError "Unknown network")
     end
   else Throw (TypeError "Address has mismatched type.")).
Proof.
  intros L. unfold _transformBuffer, _classifyFromVersion.
  cbn [List.length hd_error tl]. rewrite L. cbn [Nat.add Nat.eqb negb].
  split; [|split].
  - intros n ->. reflexivity.
  - intros n -> ->. reflexivity.
  - intros -> ->. cbn [fst snd].
    destruct (opt_truthy NetArg_truthy network); [|reflexivity].
    destruct (Networks_get_opt network); reflexivity.
Qed.

(** C10. The constructor returns an [Address] that it is given, whatever
    the network and the type arguments. *)
Theorem constructor_identity (a : Address) (network : option NetArg)
  (type : option string) :
  Address_new (DAddress a) network type = OK a.
Proof. unfold Address_new. destruct network as [[]|]; reflexivity. Qed.

End Classifier.

(** ** C9: addresses in memory *)












Lemma Buffer_bytes_new (memory : Memory) (bytes : list Z) :
  Buffer_bytes (snd (Buffer_alloc memory bytes)) (fst (Buffer_alloc memory bytes))
  = bytes.
Proof.
  unfold Buffer_bytes, Buffer_alloc.
  cbn [fst snd buffer_block buffer_offset buffer_length].
  rewrite nth_middle. cbn [skipn]. apply firstn_all.
Qed.

Section InMemoryFacts.

Context {registry : Registry} {collaborators : Collaborators}.



End InMemoryFacts.

(** ** Linearity of the checksum *)

Lemma polymod_step_zero (c v : Z) :
  polymod_step c v = Z.lxor (polymod_step c 0) v.
Proof. rewrite !polymod_step_eq. bitwise. Qed.

Lemma gen_xor_linear (t1 t2 : Z) :
  0 <= t1 < 32 -> 0 <= t2 < 32 ->
  gen_xor (Z.lxor t1 t2) = Z.lxor (gen_xor t1) (gen_xor t2).
Proof.
  intros H1 H2.
  pose proof (range_forallb
    (fun t1 => forallb
       (fun t2 => gen_xor (Z.lxor t1 t2) =? Z.lxor (gen_xor t1) (gen_xor t2))
       (map Z.of_nat (seq 0 32))) 32 eq_refl t1 H1) as F.
  cbv beta in F. apply Z.eqb_eq.
  exact (range_forallb _ 32 F t2 H2).
Qed.

Lemma polymod_step_linear (a b : Z) :
  state a -> state b ->
  polymod_step (Z.lxor a b) 0 = Z.lxor (polymod_step a 0) (polymod_step b 0).
Proof.
  intros Ha Hb. rewrite !polymod_step_eq.
  rewrite Z.shiftr_lxor, gen_xor_linear by (apply top_range; assumption).
  rewrite land_lxor_distr, Z.shiftl_lxor. bitwise.
Qed.

Lemma zero_steps_succ_r (n : nat) (c : Z) :
  zero_steps (S n) c = polymod_step (zero_steps n c) 0.
Proof.
  unfold zero_steps. change (S n) with (1 + n)%nat.
  rewrite Nat.add_comm, repeat_app, fold_left_app. reflexivity.
Qed.

Lemma lxor_state (a b : Z) : state a -> state b -> state (Z.lxor a b).
Proof. unfold state. intros. apply lxor_range; lia. Qed.

Lemma fold_polymod_step_lxor (data : list Z) :
  forall a b, state a -> state b -> Forall symbol data ->
  Z.lxor (fold_left polymod_step data a) (fold_left polymod_step data b)
  = zero_steps (List.length data) (Z.lxor a b).
Proof.
  induction data as [|v data IH]; intros a b Ha Hb Hd; [reflexivity|].
  inversion Hd; subst. cbn [fold_left List.length].
  rewrite IH by auto using polymod_step_state.
  unfold zero_steps. cbn [repeat fold_left]. f_equal.
  rewrite (polymod_step_zero a), (polymod_step_zero b), polymod_step_linear
    by assumption.
  bitwise.
Qed.

Lemma lxor_swap (x y u w : Z) :
  Z.lxor x u = Z.lxor y w -> Z.lxor x y = Z.lxor u w.
Proof.
  intros E. replace x with (Z.lxor (Z.lxor y w) u) by (rewrite <- E; bitwise).
  bitwise.
Qed.

(** A payload valid for [p] and, with one symbol replaced, valid for [q]:
    the difference of the starting states steps to the difference of the
    two symbols. *)
Lemma validChecksum_substitution_states (p q : string) (l1 l2 : list Z) (v0 v : Z) :
  Forall symbol l1 -> Forall symbol l2 -> symbol v0 -> symbol v ->
  validChecksum p (l1 ++ v0 :: l2) = true ->
  validChecksum q (l1 ++ v :: l2) = true ->
  zero_steps (S (List.length l1)) (Z.lxor (prefix_state p) (prefix_state q))
  = Z.lxor v0 v.
Proof.
  rewrite !validChecksum_prefix_state, !fold_left_app. cbn [fold_left].
  intros H1 H2 S0 S Vp Vq.
  apply Z.eqb_eq, lxor_1_eq_0 in Vp. apply Z.eqb_eq, lxor_1_eq_0 in Vq.
  set (a := fold_left polymod_step l1 (prefix_state p)) in *.
  set (b := fold_left polymod_step l1 (prefix_state q)) in *.
  assert (Ha : state a)
    by (apply fold_polymod_step_state; auto using prefix_state_state).
  assert (Hb : state b)
    by (apply fold_polymod_step_state; auto using prefix_state_state).
  assert (E : polymod_step a v0 = polymod_step b v).
  { apply (fold_polymod_step_inj l2); auto using polymod_step_state. congruence. }
  rewrite zero_steps_succ_r.
  rewrite <- (fold_polymod_step_lxor l1) by auto using prefix_state_state.
  fold a b. rewrite polymod_step_linear by assumption.
  rewrite (polymod_step_zero a v0), (polymod_step_zero b v) in E.
  apply lxor_swap. exact E.
Qed.

Lemma lxor_symbols_nonzero (v0 v : Z) :
  symbol v0 -> symbol v -> v <> v0 -> 0 < Z.lxor v0 v < 32.
Proof.
  unfold symbol. intros H0 H N.
  pose proof (lxor_range 5 v0 v ltac:(lia) ltac:(lia) ltac:(lia)) as R.
  assert (Z.lxor v0 v <> 0) by (intros E; apply Z.lxor_eq in E; congruence).
  lia.
Qed.

Lemma separated_spec (bound : nat) (p q : string) (k : nat) :
  separated bound p q = true -> (k < bound)%nat ->
  ~ 0 < zero_steps (S k) (Z.lxor (prefix_state p) (prefix_state q)) < 32.
Proof.
  unfold separated. rewrite forallb_forall. intros H Hk R.
  specialize (H k ltac:(apply in_seq; lia)). cbv zeta in H.
  apply negb_true_iff, andb_false_iff in H.
  destruct H as [H|H]; [apply Z.ltb_ge in H|apply Z.ltb_ge in H]; lia.
Qed.

(** ** C4: checksum sensitivity *)

(** The payload of a lower-case text and of the text with one character
    replaced by another character of the alphabet. *)
Lemma payload_substitution (s1 s2 : string) (c0 c : ascii) (payload : list Z) :
  Base32.symbol_of_char c <> None -> c <> c0 ->
  JS.toLowerCase (s1 ++ String c0 s2) = (s1 ++ String c0 s2)%string ->
  colon_free (s1 ++ String c0 s2) = true ->
  Base32.decode (s1 ++ String c0 s2) = OK payload ->
  JS.toLowerCase (s1 ++ String c s2) = (s1 ++ String c s2)%string /\
  colon_free (s1 ++ String c s2) = true /\
  exists l1 l2 v0 v,
    payload = l1 ++ v0 :: l2 /\
    Base32.decode (s1 ++ String c s2) = OK (l1 ++ v :: l2) /\
    Forall symbol l1 /\ Forall symbol l2 /\ symbol v0 /\ symbol v /\ v <> v0 /\
    (List.length l1 < String.length (s1 ++ String c0 s2))%nat.
Proof.
  intros Hc Hne Hl Cs Hp.
  unfold JS.toLowerCase in Hl. rewrite map_string_app in Hl.
  apply append_inj in Hl; [|apply map_string_length].
  destruct Hl as [L1 Hl]. cbn [JS.map_string] in Hl. injection Hl as Lc0 L2.
  destruct (Base32.symbol_of_char c) as [v|] eqn:Sc; [clear Hc|congruence].
  pose proof (symbol_of_char_inv c v Sc) as Cv.
  destruct (char_of_symbol_facts v c Cv) as (Sv & _ & Lc & Cc).
  split; [|split].
  - unfold JS.toLowerCase. rewrite map_string_app. cbn [JS.map_string].
    rewrite L1, Lc, L2. reflexivity.
  - rewrite colon_free_app in *. cbn [colon_free] in *. rewrite Cc.
    destruct (Ascii.eqb c0 ":"); [rewrite andb_false_r in Cs; discriminate|].
    exact Cs.
  - pose proof (Base32_decode_symbols _ _ Hp) as Hsym.
    pose proof (Base32_decode_length _ _ Hp) as Hlen.
    apply Base32_decode_app in Hp. destruct Hp as (l1 & l2' & -> & D1 & D2).
    rewrite Base32_decode_cons in D2.
    destruct (Base32.symbol_of_char c0) as [v0|] eqn:Sc0; [|discriminate].
    apply bind_OK in D2. destruct D2 as (l2 & D2 & E). inversion E; subst l2'.
    clear E. apply Forall_app in Hsym. destruct Hsym as [S1 S2].
    inversion S2 as [|? ? Sv0 S2']; subst.
    exists l1, l2, v0, v. split; [reflexivity|]. split.
    { apply Base32_decode_app_OK; [assumption|].
      rewrite Base32_decode_cons, Sc, D2. reflexivity. }
    repeat (split; [assumption|]). split.
    { intros ->. apply Hne. apply symbol_of_char_inv in Sc0. congruence. }
    rewrite <- Hlen, length_app. cbn. lia.
Qed.

Section Sensitivity.

Context {registry : Registry}.

(** C4. Take a lower-case text that decodes, and replace one character of
    its payload by another character of the alphabet: decoding fails with
    the invalid-checksum error. This holds for every text with a prefix;
    and for every text without prefix when no protocol of the three
    networks can take the place of another in a payload with one symbol
    replaced. *)
Theorem checksum_sensitivity (s1 s2 : string) (c0 c : ascii) :
  Base32.symbol_of_char c <> None -> c <> c0 ->
  (forall p info,
      JS.truthy p = true ->
      JS.toLowerCase (p ++ String ":" (s1 ++ String c0 s2))
      = (p ++ String ":" (s1 ++ String c0 s2))%string ->
      decodeCashAddress (p ++ String ":" (s1 ++ String c0 s2)) = OK info ->
      decodeCashAddress (p ++ String ":" (s1 ++ String c s2)) =
      Throw (InvalidArgument
               ("Invalid checksum:" ++ p ++ String ":" (s1 ++ String c s2)))) /\
  (forall nl nt nr info,
      Networks_get (NetStr "livenet") = Some nl ->
      Networks_get (NetStr "testnet") = Some nt ->
      Networks_get (NetStr "regtest") = Some nr ->
      JS.truthy (protocol nl) = true -> JS.truthy (protocol nt) = true ->
      JS.truthy (protocol nr) = true ->
      (forall p q,
          In p [protocol nl; protocol nt; protocol nr] ->
          In q [protocol nl; protocol nt; protocol nr] ->
          separated (String.length (s1 ++ String c0 s2)) p q = true) ->
      colon_free (s1 ++ String c0 s2) = true ->
      JS.toLowerCase (s1 ++ String c0 s2) = (s1 ++ String c0 s2)%string ->
      decodeCashAddress (s1 ++ String c0 s2) = OK info ->
      decodeCashAddress (s1 ++ String c s2) =
      Throw (InvalidArgument ("Invalid checksum:" ++ s1 ++ String c s2))).
Proof.
  intros Hc Hne. split.
  - intros p info Tp Hl H.
    (* the parts of the text are lower case and hold no colon *)
    unfold JS.toLowerCase in Hl. rewrite map_string_app in Hl.
    apply append_inj in Hl; [|apply map_string_length].
    destruct Hl as [Lp Hl]. cbn [JS.map_string] in Hl.
    apply String_inj_tail in Hl.
    pose proof H as Hcolons. rewrite decodeCashAddress_unfold in Hcolons.
    apply bind_OK in Hcolons. destruct Hcolons as (_ & _ & Hcolons).
    apply bind_OK in Hcolons. destruct Hcolons as (? & Hcolons & _).
    apply checkArgument_OK, Nat.leb_le in Hcolons.
    unfold JS.split_colon in Hcolons.
    rewrite split_from_length, colons_toLowerCase, colons_app in Hcolons.
    cbn [colons] in Hcolons. rewrite Ascii.eqb_refl in Hcolons.
    assert (Cp : colon_free p = true) by (apply colons_0; lia).
    assert (Cs : colon_free (s1 ++ String c0 s2) = true) by (apply colons_0; lia).
    (* the payload of the text and of the altered text *)
    rewrite decodeCashAddress_prefixed in H by assumption.
    apply bind_OK in H. destruct H as (payload & Hp & H).
    apply decode_checksum_prefixed_OK in H; [|assumption]. destruct H as [Hv _].
    destruct (payload_substitution s1 s2 c0 c payload Hc Hne Hl Cs Hp)
      as (Ls' & Cs' & l1 & l2 & v0 & v & -> & Hp' & S1 & S2 & Sv0 & Sv & Nv & _).
    rewrite decodeCashAddress_prefixed, Hp' by assumption.
    cbn [bind]. unfold decode_checksum. cbn [opt_truthy]. rewrite Tp.
    rewrite (validChecksum_substitution p l1 l2 v0 v) by assumption.
    reflexivity.
  - intros nl nt nr info Gl Gt Gr Tl Tt Tr Hsep Cs Hl H.
    rewrite decodeCashAddress_bare in H by assumption.
    apply bind_OK in H. destruct H as (payload & Hp & H).
    unfold decode_checksum in H. cbn [opt_truthy] in H.
    rewrite (infer_protocol_find nl nt nr) in H by assumption.
    cbn [bind] in H.
    destruct (find (fun p => validChecksum p payload)
                [protocol nl; protocol nt; protocol nr]) as [p|] eqn:F;
      [|discriminate H].
    clear H. apply find_some in F. destruct F as [Hin Hv].
    destruct (payload_substitution s1 s2 c0 c payload Hc Hne Hl Cs Hp)
      as (Ls' & Cs' & l1 & l2 & v0 & v & -> & Hp' & S1 & S2 & Sv0 & Sv & Nv & Len).
    rewrite decodeCashAddress_bare, Hp' by assumption.
    cbn [bind]. unfold decode_checksum. cbn [opt_truthy].
    rewrite (infer_protocol_find nl nt nr) by assumption.
    cbn [bind].
    destruct (find (fun q => validChecksum q (l1 ++ v :: l2))
                [protocol nl; protocol nt; protocol nr]) as [q|] eqn:F;
      [|reflexivity].
    exfalso. apply find_some in F. destruct F as [Hq Vq].
    apply (separated_spec _ p q (List.length l1) (Hsep p q Hin Hq) Len).
    rewrite (validChecksum_substitution_states p q l1 l2 v0 v) by assumption.
    apply lxor_symbols_nonzero; assumption.
Qed.

End Sensitivity.

(** * The properties on the example registry *)

Lemma cashaddr_roundtrip_witness :
  exists text,
    toCashAddress {| hashBuffer := zero_hash; network := livenet;
                     type := PayToPublicKeyHash |} false = OK text /\
    @decodeCashAddress example_registry text =
    OK {| info_hashBuffer := zero_hash; info_network := Some livenet;
          info_type := Some PayToPublicKeyHash |}.
Proof.
  apply (@cashaddr_roundtrip example_registry zero_hash PayToPublicKeyHash livenet).
  - reflexivity.
  - repeat constructor; discriminate.
  - left. reflexivity.
  - split; reflexivity.
Defined.


(** Which errors: a text with the version byte 16, and a text whose
    version byte announces 24 bytes before a hash of 20. *)
Example version_byte_errors :
  @decodeCashAddress example_registry
    "bitcoincash:zqqqqqqqqqqqqqqqqqqqqqqqqqqqqqqqqqweyg7usz"
  = Throw (Error "Invalid address type in version byte:16") /\
  @decodeCashAddress example_registry
    "bitcoincash:qyqqqqqqqqqqqqqqqqqqqqqqqqqqqqqqqqx2jnhvj3"
  = Throw (InvalidArgument
             "Invalid hash size:bitcoincash:qyqqqqqqqqqqqqqqqqqqqqqqqqqqqqqqqqx2jnhvj3").
Proof. split; vm_compute; reflexivity. Qed.


Lemma checksum_sensitivity_witness :
  @decodeCashAddress example_registry
    "bitcoincash:pqqqqqqqqqqqqqqqqqqqqqqqqqqqqqqqqqfnhks603"
  = Throw (InvalidArgument
             "Invalid checksum:bitcoincash:pqqqqqqqqqqqqqqqqqqqqqqqqqqqqqqqqqfnhks603") /\
  @decodeCashAddress example_registry
    "pqqqqqqqqqqqqqqqqqqqqqqqqqqqqqqqqqfnhks603"
  = Throw (InvalidArgument
             "Invalid checksum:pqqqqqqqqqqqqqqqqqqqqqqqqqqqqqqqqqfnhks603").
Proof.
  pose proof (@checksum_sensitivity example_registry
                "" "qqqqqqqqqqqqqqqqqqqqqqqqqqqqqqqqqfnhks603" "q" "p"
                ltac:(vm_compute; discriminate) ltac:(discriminate))
    as [Prefixed Bare].
  split.
  - apply (Prefixed "bitcoincash"
             {| info_hashBuffer := zero_hash; info_network := Some livenet;
                info_type := Some PayToPublicKeyHash |}).
    + reflexivity.
    + reflexivity.
    + vm_compute. reflexivity.
  - apply (Bare livenet testnet regtest
             {| info_hashBuffer := zero_hash; info_network := Some livenet;
                info_type := Some PayToPublicKeyHash |}
             eq_refl eq_refl eq_refl eq_refl eq_refl eq_refl).
    + intros p q Hp Hq. cbn [In protocol livenet testnet regtest] in Hp, Hq.
      destruct Hp as [<-|[<-|[<-|[]]]]; destruct Hq as [<-|[<-|[<-|[]]]];
        vm_compute; reflexivity.
    + reflexivity.
    + reflexivity.
    + vm_compute. reflexivity.
Defined.

(** C5, the claim as stated fails: a record of livenet and of type
    scripthash, with the arguments testnet and pubkeyhash, is accepted,
    and the address has the network and the type of the record. *)
Lemma explicit_arguments_counterexample :
  @Address_new example_registry example_collaborators
    (DObject {| data_hash := None; data_hashBuffer := Some zero_hash;
                data_type := Some PayToScriptHash;
                data_network := Some (NetStr "livenet") |})
    (Some (NetStr "testnet")) (Some PayToPublicKeyHash)
  = OK {| hashBuffer := zero_hash; network := livenet;
          type := PayToScriptHash |}.
Proof. reflexivity. Qed.

Lemma explicit_arguments_cross_checked_witness :
  @Address_new example_registry example_collaborators
    (DBuffer (0 :: zero_hash)) (Some (NetStr "testnet")) None
  = Throw (TypeError "Address has mismatched network type.").
Proof.
  apply (proj1 (@explicit_arguments_cross_checked
                  example_registry example_collaborators
                  (Some (NetStr "testnet")) None (or_introl eq_refl))
           (DBuffer (0 :: zero_hash)) livenet PayToPublicKeyHash
           (NetStr "testnet") testnet eq_refl eq_refl eq_refl eq_refl).
  discriminate.
Defined.

(** C6, the claim as stated fails: a text of 36 characters that starts
    with a space is not decoded as CashAddr text, it is refused as an
    invalid address string; and a text of 35 characters with an unknown
    network fails with the unknown-network error. *)
Lemma string_length_counterexample :
  (35 < String.length " qqqqqqqqqqqqqqqqqqqqqqqqqqqqqqqqqqq")%nat /\
  @_transformString example_registry " qqqqqqqqqqqqqqqqqqqqqqqqqqqqqqqqqqq"
    None None
  = Throw (Error "Invalid Address string provided") /\
  @decodeCashAddress example_registry
    (JS.trim " qqqqqqqqqqqqqqqqqqqqqqqqqqqqqqqqqqq")
  = Throw (InvalidArgument "Invalid checksum:qqqqqqqqqqqqqqqqqqqqqqqqqqqqqqqqqqq") /\
  String.length "qqqqqqqqqqqqqqqqqqqqqqqqqqqqqqqqqqq" = 35%nat /\
  @_transformString example_registry "qqqqqqqqqqqqqqqqqqqqqqqqqqqqqqqqqqq"
    (Some (NetStr "nonet")) None
  = Throw (TypeError "Unknown network").
Proof. repeat split; vm_compute; reflexivity. Qed.

Lemma string_length_classes_witness :
  @_transformString example_registry
    "bitcoincash:qqqqqqqqqqqqqqqqqqqqqqqqqqqqqqqqqqfnhks603" None None
  = OK {| info_hashBuffer := zero_hash; info_network := Some livenet;
          info_type := Some PayToPublicKeyHash |}.
Proof.
  refine (proj2 (proj2 (proj2 (proj2 (@string_length_classes example_registry
                    "bitcoincash:qqqqqqqqqqqqqqqqqqqqqqqqqqqqqqqqqqfnhks603"
                    None None))) _ _ _)
            {| info_hashBuffer := zero_hash; info_network := Some livenet;
               info_type := Some PayToPublicKeyHash |} livenet _ eq_refl).
  - vm_compute. lia.
  - intros H. discriminate H.
  - vm_compute. lia.
  - vm_compute. reflexivity.
Defined.

(** C7, the claim as stated fails: a version byte that no network
    registers and a type argument that differs from the type of a
    registered version byte fail with the same error. *)
Lemma version_byte_lookup_counterexample :
  @Networks_get_key example_registry 255 key_prefix_pubkeyhash = None /\
  @Networks_get_key example_registry 255 key_prefix_scripthash = None /\
  @_transformBuffer example_registry (255 :: zero_hash) None None
  = Throw (TypeError "Address has mismatched type.") /\
  @_transformBuffer example_registry (0 :: zero_hash) None
    (Some PayToScriptHash)
  = Throw (TypeError "Address has mismatched type.").
Proof. repeat split. Qed.

Lemma version_byte_lookup_witness :
  @_transformBuffer example_registry (0 :: zero_hash) None None
  = OK {| info_hashBuffer := zero_hash; info_network := Some livenet;
          info_type := Some PayToPublicKeyHash |}.
Proof.
  apply (proj1 (@version_byte_lookup example_registry 0 zero_hash None None
                  eq_refl) livenet).
  reflexivity.
Defined.

Lemma case_invariance_witness :
  @decodeCashAddress example_registry
    (JS.toUpperCase "bitcoincash:qqqqqqqqqqqqqqqqqqqqqqqqqqqqqqqqqqfnhks603")
  = OK {| info_hashBuffer := zero_hash; info_network := Some livenet;
          info_type := Some PayToPublicKeyHash |}.
Proof.
  apply (proj1 (@case_invariance example_registry)).
  - reflexivity.
  - vm_compute. reflexivity.
Defined.



(** * Further properties of the checksum engine *)

(** X1. The checksum of a sequence of 5-bit symbols fits in 40 bits. *)
Theorem polymod_range (data : list Z) :
  Forall symbol data -> 0 <= polymod data < 2 ^ 40.
Proof.
  intros H. unfold polymod.
  assert (S : state (fold_left polymod_step data 1))
    by (apply fold_polymod_step_state; [unfold state; lia|assumption]).
  unfold state in S. apply lxor_range; lia.
Qed.

Lemma checksum_digits_value (n : nat) (c : Z) :
  fold_right (fun d acc => acc * 32 + d) 0 (checksum_digits n c)
  = c mod 2 ^ (5 * Z.of_nat n).
Proof.
  revert c. induction n as [|n IH]; intros c.
  - cbn. rewrite Z.mod_1_r. reflexivity.
  - cbn [checksum_digits fold_right]. rewrite IH.
    change 31 with (Z.ones 5).
    rewrite Z.land_ones, Z.shiftr_div_pow2 by lia.
    replace (5 * Z.of_nat (S n)) with (5 + 5 * Z.of_nat n) by lia.
    rewrite Z.pow_add_r by lia.
    rewrite Z.rem_mul_r by (try apply Z.pow_pos_nonneg; lia).
    change (2 ^ 5) with 32. lia.
Qed.

(** X2. [checksumToArray] returns eight 5-bit digits: the low 40 bits of
    the checksum in base 32, most significant digit first. *)
Theorem checksumToArray_digits (checksum : Z) :
  List.length (checksumToArray checksum) = 8%nat /\
  Forall symbol (checksumToArray checksum) /\
  fold_left (fun acc d => acc * 32 + d) (checksumToArray checksum) 0
  = checksum mod 2 ^ 40.
Proof.
  unfold checksumToArray. split; [|split].
  - rewrite length_rev. apply checksum_digits_length.
  - apply Forall_rev, checksum_digits_symbols.
  - rewrite <- fold_left_rev_right, rev_involutive.
    apply (checksum_digits_value 8).
Qed.

Lemma horner_snoc (D : Z) (digits : list Z) (d : Z) :
  horner D (digits ++ [d]) = Z.lxor (Z.shiftl (horner D digits) 5) d.
Proof. unfold horner. rewrite fold_left_app. reflexivity. Qed.

Lemma checksum_digits_horner_rev (digits : list Z) (D : Z) :
  Forall symbol digits ->
  checksum_digits (List.length digits) (horner D digits) = rev digits.
Proof.
  induction digits as [|d digits IH] using rev_ind; intros H; [reflexivity|].
  apply Forall_app in H. destruct H as [Hd Hl]. inversion Hl as [|? ? Sd _]; subst.
  unfold symbol in Sd.
  rewrite length_app, Nat.add_comm, horner_snoc, rev_app_distr.
  cbn [List.length Nat.add checksum_digits rev app].
  f_equal.
  - rewrite land_lxor_distr, shiftl5_low, Z.lxor_0_l.
    change 31 with (Z.ones 5). rewrite Z.land_ones, Z.mod_small by lia.
    reflexivity.
  - rewrite Z.shiftr_lxor, Z.shiftr_shiftl_l by lia.
    rewrite (Z.shiftr_div_pow2 d), (Z.div_small d), Z.lxor_0_r by lia.
    change (5 - 5) with 0. rewrite Z.shiftl_0_r. apply IH. assumption.
Qed.

(** X3. Among the sequences of eight symbols, the digits of
    [polymod (data ++ eight zeros)] are the one and only that make
    [polymod] of the data followed by them zero. *)
Theorem polymod_checksum_unique (data digits : list Z) :
  Forall symbol data -> Forall symbol digits -> List.length digits = 8%nat ->
  polymod (data ++ digits) = 0 <->
  digits = checksumToArray (polymod (data ++ [0; 0; 0; 0; 0; 0; 0; 0])).
Proof.
  intros Hd Hs Hl. split.
  - unfold polymod. rewrite !fold_left_app.
    set (c := fold_left polymod_step data 1).
    intros V. apply lxor_1_eq_0 in V.
    rewrite <- (Z.lxor_0_r c) in V at 1.
    rewrite fold_polymod_step_digits in V
      by (try assumption; rewrite Hl; cbn; lia).
    rewrite Hl in V.
    change (fold_left polymod_step (repeat 0 8) c)
      with (fold_left polymod_step [0; 0; 0; 0; 0; 0; 0; 0] c) in V.
    set (S := fold_left polymod_step [0; 0; 0; 0; 0; 0; 0; 0] c) in *.
    assert (E : horner 0 digits = Z.lxor S 1).
    { rewrite <- V. bitwise. }
    rewrite <- E. unfold checksumToArray. rewrite <- Hl.
    rewrite checksum_digits_horner_rev by assumption.
    symmetry. apply rev_involutive.
  - intros ->. apply polymod_checksum. assumption.
Qed.

Lemma protocol_code_case (c : ascii) :
  Z.land (Z.of_nat (nat_of_ascii (JS.upper_char c))) 31
  = Z.land (Z.of_nat (nat_of_ascii c)) 31 /\
  Z.land (Z.of_nat (nat_of_ascii (JS.lower_char c))) 31
  = Z.land (Z.of_nat (nat_of_ascii c)) 31.
Proof. destruct c as [[] [] [] [] [] [] [] []]; split; reflexivity. Qed.

(** X4. The case of the letters of the protocol does not matter to the
    checksum: [protocolToArray] of a protocol, of its upper-case form and
    of its lower-case form are the same, and so is [validChecksum]. *)
Theorem protocolToArray_case (p : string) (payload : list Z) :
  protocolToArray (JS.toUpperCase p) = protocolToArray p /\
  protocolToArray (JS.toLowerCase p) = protocolToArray p /\
  validChecksum (JS.toUpperCase p) payload = validChecksum p payload.
Proof.
  assert (U : protocolToArray (JS.toUpperCase p) = protocolToArray p).
  { unfold protocolToArray. induction p as [|c p IH]; [reflexivity|].
    cbn [JS.toUpperCase JS.map_string JS.charCodes map].
    rewrite (proj1 (protocol_code_case c)). f_equal. exact IH. }
  split; [exact U|]. split.
  - clear U. unfold protocolToArray. induction p as [|c p IH]; [reflexivity|].
    cbn [JS.toLowerCase JS.map_string JS.charCodes map].
    rewrite (proj2 (protocol_code_case c)). f_equal. exact IH.
  - unfold validChecksum. rewrite U. reflexivity.
Qed.

(** * Further properties of the text codec *)

Lemma getHashSizeBits_cases (hash : list Z) (sizeBits : Z) :
  getHashSizeBits hash = OK sizeBits ->
  In (Z.of_nat (List.length hash) * 8, sizeBits)
    [(160, 0); (192, 1); (224, 2); (256, 3);
     (320, 4); (384, 5); (448, 6); (512, 7)].
Proof.
  unfold getHashSizeBits.
  generalize (Z.of_nat (List.length hash) * 8) as x.
  generalize (Error ("Invalid hash size:" ++ decimal (Z.of_nat (List.length hash)))) as e.
  intros e x.
  destruct x as [|p|p]; try discriminate.
  do 10 (try (destruct p as [p|p|]; try discriminate));
    intros E; inversion E; cbn; tauto.
Qed.

Lemma version_byte_inverse (ty : string) (hash : list Z) (typeBits sizeBits : Z) :
  getTypeBits ty = OK typeBits -> getHashSizeBits hash = OK sizeBits ->
  getType (Some (typeBits + sizeBits)) = OK ty /\
  getHashSize (Some (typeBits + sizeBits))
  = Some (Z.of_nat (List.length hash) * 8).
Proof.
  intros Ht Hs. apply getHashSizeBits_cases in Hs.
  apply symbol_byte_version in Ht.
  cbn [In] in Hs.
  destruct Ht as [[-> ->]|[-> ->]];
    repeat (destruct Hs as [Hs|Hs];
            [injection Hs as E1 E2; subst sizeBits; rewrite <- E1;
             split; reflexivity|]);
    destruct Hs.
Qed.

(** X5. The version byte that [toCashAddress] builds from a type and a
    hash gives back, through [getType] and [getHashSize], that type and
    the length of that hash in bits. *)
Theorem version_byte_roundtrip (ty : string) (hash : list Z) (typeBits sizeBits : Z) :
  getTypeBits ty = OK typeBits -> getHashSizeBits hash = OK sizeBits ->
  getType (Some (typeBits + sizeBits)) = OK ty /\
  getHashSize (Some (typeBits + sizeBits))
  = Some (Z.of_nat (List.length hash) * 8).
Proof. apply version_byte_inverse. Qed.

Lemma getHashSizeBits_error (hash : list Z) (e : exn) :
  getHashSizeBits hash = Throw e ->
  e = Error ("Invalid hash size:" ++ decimal (Z.of_nat (List.length hash))).
Proof.
  unfold getHashSizeBits.
  generalize (Z.of_nat (List.length hash) * 8) as x.
  generalize (Error ("Invalid hash size:" ++ decimal (Z.of_nat (List.length hash)))) as e0.
  intros e0 x.
  destruct x as [|p|p]; try (intros E; inversion E; reflexivity).
  do 10 (try (destruct p as [p|p|]; try (intros E; inversion E; reflexivity)));
    discriminate.
Qed.

Lemma getHashSizeBits_lengths (hash : list Z) :
  In (List.length hash) hash_lengths <->
  exists sizeBits, getHashSizeBits hash = OK sizeBits.
Proof.
  split.
  - unfold getHashSizeBits, hash_lengths. cbn [In].
    intros H.
    repeat (destruct H as [H|H]; [rewrite <- H; eexists; reflexivity|]).
    destruct H.
  - intros [sb H]. apply getHashSizeBits_cases in H. unfold hash_lengths.
    cbn [In] in *.
    repeat (destruct H as [H|H]; [injection H as E _; lia|]).
    destruct H.
Qed.

Lemma convertBits_symbols (data : list Z) :
  exists symbols,
    convertBits data 8 5 false = OK symbols /\ Forall symbol symbols.
Proof.
  unfold convertBits.
  destruct (regroup_bits 5 (flat_map (bits_of 8) data) []
              ltac:(cbn; lia) bits_of_value_of_5) as (_ & I2 & I3).
  destruct (regroup 5 [] (flat_map (bits_of 8) data)) as [groups rest].
  cbn [fst snd] in *.
  destruct rest as [|r rest]; [eauto|].
  eexists. split; [reflexivity|].
  apply Forall_app. split; [exact I3|]. constructor; [|constructor].
  pose proof (value_of_range
                ((r :: rest) ++ repeat false (5 - List.length (r :: rest)))) as R.
  rewrite length_app, repeat_length in R.
  replace (List.length (r :: rest) + (5 - List.length (r :: rest)))%nat
    with 5%nat in R by lia.
  exact R.
Qed.

Lemma bits_of_value_of_8 (group : list bool) :
  List.length group = 8%nat -> bits_of 8 (value_of group) = group.
Proof.
  intros H.
  do 9 (destruct group as [|? group]; try discriminate H).
  repeat match goal with b : bool |- _ => destruct b end; reflexivity.
Qed.

Lemma convertBits_bytes (data bytes : list Z) :
  convertBits data 5 8 true = OK bytes -> Forall byte bytes.
Proof.
  unfold convertBits.
  destruct (regroup_bits 8 (flat_map (bits_of 5) data) []
              ltac:(cbn; lia) bits_of_value_of_8) as (_ & _ & I3).
  destruct (regroup 8 [] (flat_map (bits_of 5) data)) as [groups rest].
  cbn [fst snd] in *.
  destruct (existsb (fun b : bool => b) rest); [discriminate|].
  intros E. inversion E; subst. exact I3.
Qed.

(** X6. [toCashAddress] throws "Invalid type" for a type that is neither
    pubkeyhash nor scripthash, throws "Invalid hash size" for one of these
    types and a hash of another length than 20, 24, 28, 32, 40, 48, 56 or
    64 bytes, and returns a text for one of these types and a hash of one
    of these lengths whose elements are bytes, from 0 to 255. *)
Theorem toCashAddress_outcome (a : Address) (stripProtocol : bool) :
  (type a <> PayToPublicKeyHash -> type a <> PayToScriptHash ->
   toCashAddress a stripProtocol = Throw (Error ("Invalid type:" ++ type a))) /\
  ((type a = PayToPublicKeyHash \/ type a = PayToScriptHash) ->
   ~ In (List.length (hashBuffer a)) hash_lengths ->
   toCashAddress a stripProtocol =
   Throw (Error ("Invalid hash size:" ++
                 decimal (Z.of_nat (List.length (hashBuffer a)))))) /\
  ((type a = PayToPublicKeyHash \/ type a = PayToScriptHash) ->
   In (List.length (hashBuffer a)) hash_lengths ->
   Forall byte (hashBuffer a) ->
   exists text, toCashAddress a stripProtocol = OK text).
Proof.
  unfold toCashAddress. split; [|split].
  - intros N1 N2. unfold getTypeBits.
    destruct (String.eqb_spec (type a) "pubkeyhash"); [contradiction|].
    destruct (String.eqb_spec (type a) "scripthash"); [contradiction|].
    reflexivity.
  - intros Hty Hlen.
    assert (exists tb, getTypeBits (type a) = OK tb) as [tb ->]
      by (destruct Hty as [-> | ->]; eexists; reflexivity).
    cbn [bind].
    destruct (getHashSizeBits (hashBuffer a)) as [sb|e] eqn:E.
    + exfalso. apply Hlen. apply getHashSizeBits_lengths. eauto.
    + apply getHashSizeBits_error in E. subst e. reflexivity.
  - intros Hty Hlen _.
    assert (exists tb, getTypeBits (type a) = OK tb) as [tb ->]
      by (destruct Hty as [-> | ->]; eexists; reflexivity).
    apply getHashSizeBits_lengths in Hlen. destruct Hlen as [sb ->].
    cbn [bind].
    destruct (convertBits_symbols ((tb + sb) :: hashBuffer a)) as (symbols & -> & S).
    cbn [bind].
    destruct (Base32_encode_decode
                (symbols ++ checksumToArray
                   (polymod ((protocolToArray (protocol (network a)) ++ [0]) ++
                             symbols ++ [0; 0; 0; 0; 0; 0; 0; 0]))))
      as (body & -> & _).
    { apply Forall_app. split; [assumption|].
      unfold checksumToArray. apply Forall_rev, checksum_digits_symbols. }
    cbn [bind]. destruct stripProtocol; eauto.
Qed.

Lemma convertBits_length_ge (bytes symbols : list Z) :
  convertBits bytes 8 5 false = OK symbols ->
  (8 * List.length bytes <= 5 * List.length symbols)%nat.
Proof.
  unfold convertBits.
  destruct (regroup_bits 5 (flat_map (bits_of 8) bytes) []
              ltac:(cbn; lia) bits_of_value_of_5) as (I1 & I2 & _).
  destruct (regroup 5 [] (flat_map (bits_of 8) bytes)) as [groups rest].
  cbn [fst snd app] in *.
  apply (f_equal (@List.length bool)) in I1.
  rewrite length_app in I1.
  assert (F8 : forall l, List.length (flat_map (bits_of 8) l) = (8 * List.length l)%nat).
  { induction l; cbn [flat_map List.length]; [reflexivity|].
    rewrite length_app, bits_of_length. lia. }
  assert (F5 : forall l, List.length (flat_map (bits_of 5) l) = (5 * List.length l)%nat).
  { induction l; cbn [flat_map List.length]; [reflexivity|].
    rewrite length_app, bits_of_length. lia. }
  rewrite F8, F5 in I1.
  destruct rest as [|r rest]; intros E; inversion E; subst.
  - cbn in I1. lia.
  - rewrite length_app. cbn [List.length] in *. lia.
Qed.

(** The encoding of an address with a hash of a supported length, in its
    stages. *)
Lemma toCashAddress_stages_sized (hash : list Z) (ty : string) (net : Network) :
  In (List.length hash) hash_lengths -> Forall byte hash ->
  ty = PayToPublicKeyHash \/ ty = PayToScriptHash ->
  exists versionByte symbols digits body,
    getType (Some versionByte) = OK ty /\
    getHashSize (Some versionByte) = Some (Z.of_nat (List.length hash) * 8) /\
    Forall symbol symbols /\
    convertBits symbols 5 8 true = OK (versionByte :: hash) /\
    List.length digits = 8%nat /\ Forall symbol digits /\
    validChecksum (protocol net) (symbols ++ digits) = true /\
    Base32.decode body = OK (symbols ++ digits) /\
    JS.toLowerCase body = body /\ colon_free body = true /\
    (8 * S (List.length hash) <= 5 * List.length symbols)%nat /\
    forall strip,
      toCashAddress {| hashBuffer := hash; network := net; type := ty |} strip =
      OK (if strip then body else (protocol net ++ String ":" body)%string).
Proof.
  intros Hlen Hbytes Hty.
  assert (exists tb, getTypeBits ty = OK tb) as [tb Tb]
    by (destruct Hty as [-> | ->]; eexists; reflexivity).
  apply getHashSizeBits_lengths in Hlen. destruct Hlen as [sb Sb].
  destruct (version_byte_inverse ty hash tb sb Tb Sb) as [Gt Gs].
  assert (Hvbytes : Forall byte (tb + sb :: hash)).
  { constructor; [|assumption]. unfold byte.
    apply symbol_byte_version in Tb. apply getHashSizeBits_cases in Sb.
    cbn [In] in Sb.
    assert (0 <= sb < 8).
    { repeat (destruct Sb as [Sb|Sb]; [injection Sb as _ E; lia|]). destruct Sb. }
    destruct Tb as [[-> _]|[-> _]]; lia. }
  destruct (convertBits_roundtrip (tb + sb :: hash) Hvbytes) as (symbols & E1 & S1 & D1).
  set (pre := protocolToArray (protocol net) ++ [0]).
  set (digits := checksumToArray (polymod (pre ++ symbols ++ [0; 0; 0; 0; 0; 0; 0; 0]))).
  assert (Hpre : Forall symbol pre).
  { subst pre. apply Forall_app. split; [apply protocolToArray_symbols|].
    repeat constructor; unfold symbol; lia. }
  assert (Hdig : Forall symbol digits).
  { subst digits. unfold checksumToArray. apply Forall_rev, checksum_digits_symbols. }
  assert (Ldig : List.length digits = 8%nat).
  { subst digits. unfold checksumToArray.
    rewrite length_rev, checksum_digits_length. reflexivity. }
  destruct (Base32_encode_decode (symbols ++ digits)) as (body & E2 & D2 & Lb & Cb).
  { apply Forall_app. auto. }
  exists (tb + sb), symbols, digits, body.
  repeat (split; [assumption|]).
  split.
  { unfold validChecksum. fold pre. apply Z.eqb_eq.
    rewrite app_assoc. subst digits. rewrite (app_assoc pre symbols).
    apply polymod_checksum. apply Forall_app. auto. }
  repeat (split; [assumption|]).
  split; [exact (convertBits_length_ge _ _ E1)|].
  intros strip. unfold toCashAddress. cbn [hashBuffer network type].
  rewrite Tb, Sb. cbn [bind]. rewrite E1. cbn [bind]. fold pre. fold digits.
  rewrite E2. cbn [bind]. destruct strip; reflexivity.
Qed.

Section Sizes.

Context {registry : Registry}.

Lemma decode_payload_sized (address : string) (p : string)
  (hash symbols digits : list Z) (versionByte : Z) (ty : string) :
  getType (Some versionByte) = OK ty ->
  getHashSize (Some versionByte) = Some (Z.of_nat (List.length hash) * 8) ->
  List.length digits = 8%nat ->
  convertBits symbols 5 8 true = OK (versionByte :: hash) ->
  decode_payload address (Some p) (symbols ++ digits) =
  OK {| info_hashBuffer := hash; info_network := Networks_get (NetStr p);
        info_type := Some ty |}.
Proof.
  intros Gt Gs Ld Hc. unfold decode_payload.
  rewrite slice_0_m8_app, Hc by assumption.
  cbn [bind hd_error tl]. rewrite Gs, Z.eqb_refl, Gt. reflexivity.
Qed.

(** X7. The round trip holds for every hash length that the version byte
    can announce: for a hash of 20, 24, 28, 32, 40, 48, 56 or 64 bytes,
    either type and a registered network, [decodeCashAddress] of the text
    of [toCashAddress] returns the hash, the network and the type. *)
Theorem cashaddr_roundtrip_sizes (hash : list Z) (ty : string) (net : Network) :
  In (List.length hash) hash_lengths -> Forall byte hash ->
  ty = PayToPublicKeyHash \/ ty = PayToScriptHash ->
  registered net ->
  exists text,
    toCashAddress {| hashBuffer := hash; network := net; type := ty |} false
    = OK text /\
    decodeCashAddress text =
    OK {| info_hashBuffer := hash; info_network := Some net;
          info_type := Some ty |}.
Proof.
  intros Hlen Hbytes Hty [Hwf Hget].
  destruct (protocol_wellformed_facts _ Hwf) as (Tp & Lp & Cp).
  destruct (toCashAddress_stages_sized hash ty net Hlen Hbytes Hty)
    as (vb & symbols & digits & body & Gt & Gs & _ & Hc & Ld & _ & Hv & Hd & Lb & Cb & _ & He).
  exists (protocol net ++ String ":" body)%string. split; [apply (He false)|].
  rewrite decodeCashAddress_prefixed, Hd by assumption.
  cbn [bind]. unfold decode_checksum. cbn [opt_truthy].
  rewrite Tp, Hv. cbn [checkArgument bind].
  rewrite (decode_payload_sized _ _ hash symbols digits vb ty) by assumption.
  rewrite Hget. reflexivity.
Qed.

Lemma find_protocol (nl nt nr n : Network) (payload : list Z) :
  In n [nl; nt; nr] ->
  (forall m, In m [nl; nt; nr] ->
             protocol m = protocol n \/
             prefix_state (protocol m) <> prefix_state (protocol n)) ->
  Forall symbol payload ->
  validChecksum (protocol n) payload = true ->
  find (fun p => validChecksum p payload)
    [protocol nl; protocol nt; protocol nr] = Some (protocol n).
Proof.
  intros Hn Hsep Hs Hv.
  destruct (find (fun p => validChecksum p payload)
              [protocol nl; protocol nt; protocol nr]) as [q|] eqn:F.
  - apply find_some in F. destruct F as [Hq Vq].
    apply in_map_iff with (f := protocol) (l := [nl; nt; nr]) in Hq.
    destruct Hq as (m & <- & Hm).
    destruct (Hsep m Hm) as [E|N]; [congruence|].
    exfalso. apply N. apply (validChecksum_same_state _ _ payload); auto.
  - exfalso.
    pose proof (find_none _ _ F (protocol n)
                  (in_map protocol [nl; nt; nr] n Hn)) as C.
    cbv beta in C. congruence.
Qed.

(** X8. The text that [toCashAddress] returns without the protocol decodes
    to the hash, the network and the type of the address, when the
    network is one of livenet, testnet and regtest and the protocols of
    these start the checksum in different states. *)
Theorem cashaddr_roundtrip_stripped (nl nt nr : Network)
  (hash : list Z) (ty : string) (net : Network) :
  Networks_get (NetStr "livenet") = Some nl ->
  Networks_get (NetStr "testnet") = Some nt ->
  Networks_get (NetStr "regtest") = Some nr ->
  protocol_wellformed (protocol nl) = true ->
  protocol_wellformed (protocol nt) = true ->
  protocol_wellformed (protocol nr) = true ->
  In net [nl; nt; nr] ->
  (forall m, In m [nl; nt; nr] ->
             protocol m = protocol net \/
             prefix_state (protocol m) <> prefix_state (protocol net)) ->
  Networks_get (NetStr (protocol net)) = Some net ->
  In (List.length hash) hash_lengths -> Forall byte hash ->
  ty = PayToPublicKeyHash \/ ty = PayToScriptHash ->
  exists text,
    toCashAddress {| hashBuffer := hash; network := net; type := ty |} true
    = OK text /\
    decodeCashAddress text =
    OK {| info_hashBuffer := hash; info_network := Some net;
          info_type := Some ty |}.
Proof.
  intros Gl Gt Gr Wl Wt Wr Hn Hsep Hget Hlen Hbytes Hty.
  destruct (protocol_wellformed_facts _ Wl) as (Tl & _ & _).
  destruct (protocol_wellformed_facts _ Wt) as (Tt & _ & _).
  destruct (protocol_wellformed_facts _ Wr) as (Tr & _ & _).
  assert (Tn : JS.truthy (protocol net) = true).
  { destruct Hn as [<-|[<-|[<-|[]]]]; assumption. }
  destruct (toCashAddress_stages_sized hash ty net Hlen Hbytes Hty)
    as (vb & symbols & digits & body & Gty & Gs & S1 & Hc & Ld & S2 & Hv & Hd & Lb & Cb & _ & He).
  exists body. split; [apply (He true)|].
  rewrite decodeCashAddress_bare, Hd by assumption.
  cbn [bind]. unfold decode_checksum. cbn [opt_truthy].
  rewrite (infer_protocol_find nl nt nr) by assumption.
  rewrite (find_protocol nl nt nr net) by (try apply Forall_app; auto).
  cbn [bind opt_truthy]. rewrite Tn. cbn [checkArgument bind].
  rewrite (decode_payload_sized _ _ hash symbols digits vb ty) by assumption.
  rewrite Hget. reflexivity.
Qed.

(** X9. Whatever [decodeCashAddress] returns is well formed: the hash has
    20, 24, 28, 32, 40, 48, 56 or 64 bytes, each from 0 to 255, and the
    type is pubkeyhash or scripthash. *)
Theorem decodeCashAddress_wellformed (address : string) (info : Info) :
  decodeCashAddress address = OK info ->
  In (List.length (info_hashBuffer info)) hash_lengths /\
  Forall byte (info_hashBuffer info) /\
  (info_type info = Some PayToPublicKeyHash \/
   info_type info = Some PayToScriptHash).
Proof.
  intros H. apply decodeCashAddress_version in H.
  destruct H as (payload & vb & _ & Hc & Ht & Hs).
  split; [|split].
  - apply nth_error_In in Hs. unfold hash_lengths. cbn [In] in *.
    repeat (destruct Hs as [Hs|Hs]; [lia|]). destruct Hs.
  - apply convertBits_bytes in Hc. inversion Hc; assumption.
  - destruct Ht as [[_ T]|[_ T]]; auto.
Qed.

(** X10. A text in a single case with two colons or more is refused with
    the invalid-format error, before its characters or its checksum are
    looked at. *)
Theorem decodeCashAddress_colons (address : string) :
  hasSingleCase address = true -> (2 <= colons address)%nat ->
  decodeCashAddress address =
  Throw (InvalidArgument ("Invalid format:" ++ JS.toLowerCase address)).
Proof.
  intros Hc Hn. unfold decodeCashAddress. rewrite Hc. cbn [checkArgument bind].
  unfold JS.split_colon. rewrite split_from_length, colons_toLowerCase.
  destruct (Nat.leb_spec (S (colons address)) 2); [lia|]. reflexivity.
Qed.

End Sizes.

(** * Further properties of the classifier *)

Lemma trimStart_length (s : string) :
  (String.length (JS.trimStart s) <= String.length s)%nat.
Proof.
  induction s as [|c s IH]; cbn; [lia|].
  destruct (JS.is_space c); cbn; lia.
Qed.

Lemma trimStart_fixed (c : ascii) (s : string) :
  JS.trimStart (String c s) = String c s -> JS.is_space c = false.
Proof.
  cbn. destruct (JS.is_space c); [|reflexivity].
  intros E. pose proof (trimStart_length s) as L. rewrite E in L. cbn in L. lia.
Qed.

Lemma trimEnd_space_free (s : string) :
  space_free s = true -> JS.trimEnd s = s.
Proof.
  induction s as [|c s IH]; cbn; [reflexivity|].
  intros H. apply andb_true_iff in H. destruct H as [Hc Hs].
  rewrite IH by assumption. apply negb_true_iff in Hc. rewrite Hc.
  destruct s; reflexivity.
Qed.

Lemma trimEnd_app (a b : string) :
  b <> EmptyString -> JS.trimEnd b = b -> JS.trimEnd (a ++ b) = (a ++ b)%string.
Proof.
  intros Hb Tb. induction a as [|c a IH]; [exact Tb|].
  cbn [append JS.trimEnd]. rewrite IH.
  destruct (a ++ b)%string eqn:E; [|reflexivity].
  destruct a; [cbn in E; contradiction|discriminate].
Qed.

Lemma Base32_decode_space_free (s : string) (data : list Z) :
  Base32.decode s = OK data -> space_free s = true.
Proof.
  revert data. induction s as [|c s IH]; intros data H; [reflexivity|].
  rewrite Base32_decode_cons in H.
  destruct (Base32.symbol_of_char c) as [v|] eqn:E; [|discriminate].
  apply bind_OK in H. destruct H as (data' & H & _).
  cbn [space_free]. rewrite (IH data' H), andb_true_r.
  pose proof (index_from_range _ _ _ _ E) as R. cbn in R.
  apply index_from_get in E. rewrite Z.sub_0_r in E.
  pose proof (range_forallb
    (fun v => match String.get (Z.to_nat v) Base32.CHARSET with
              | Some c => negb (JS.is_space c)
              | None => false
              end) 32 eq_refl v ltac:(lia)) as F.
  cbv beta in F. rewrite E in F. exact F.
Qed.

Section ClassifierMore.

Context {registry : Registry} {collaborators : Collaborators}.

Lemma network_argument_ok_test (network : option NetArg) :
  network_argument_ok network ->
  opt_truthy NetArg_truthy network &&
  negb (opt_truthy (fun _ => true) (Networks_get_opt network)) = false.
Proof.
  unfold network_argument_ok. intros Hnet.
  destruct (opt_truthy NetArg_truthy network); [|reflexivity].
  destruct (Networks_get_opt network); [reflexivity|].
  exfalso. apply Hnet; reflexivity.
Qed.

Lemma type_argument_ok_test (type : option string) :
  type_argument_ok type ->
  opt_truthy (fun t => JS.truthy t && negb (String.eqb t PayToPublicKeyHash)
                       && negb (String.eqb t PayToScriptHash)) type = false.
Proof. intros [->|[->| ->]]; reflexivity. Qed.

Lemma Address_new_not_array (data : Data) (network : option NetArg)
  (type : option string) :
  (forall publicKeys, data <> DArray publicKeys) ->
  Address_new data network type = Address_of data network type.
Proof.
  intros H. unfold Address_new.
  destruct data; try reflexivity.
  exfalso. eapply H. reflexivity.
Qed.

Lemma Address_of_hash (hash : list Z) (network : option NetArg)
  (type : option string) :
  List.length hash = 20%nat ->
  network_argument_ok network -> type_argument_ok type ->
  Address_new (DBuffer hash) network type =
  OK {| hashBuffer := hash;
        network := match Networks_get_opt network with
                   | Some n => n
                   | None => Networks_defaultNetwork
                   end;
        type := match type with
                | Some t => t
                | None => PayToPublicKeyHash
                end |}.
Proof.
  intros L Hn Ht. rewrite Address_new_not_array by discriminate.
  unfold Address_of. cbn [Data_truthy checkArgument bind].
  rewrite (network_argument_ok_test _ Hn), (type_argument_ok_test _ Ht).
  unfold _classifyArguments, _transformHash. rewrite L. cbn [Nat.eqb negb bind].
  cbn [info_network info_type info_hashBuffer or_network].
  destruct Ht as [->|[->| ->]]; reflexivity.
Qed.

(** X11. From a raw hash of 20 bytes the constructor takes the network
    and the type of its arguments, and its defaults, the default network
    and pubkeyhash, for the arguments that are absent. *)
Theorem constructor_raw_hash (hash : list Z) (network : option NetArg)
  (type : option string) :
  List.length hash = 20%nat ->
  network_argument_ok network -> type_argument_ok type ->
  Address_new (DBuffer hash) network type =
  OK {| hashBuffer := hash;
        network := match Networks_get_opt network with
                   | Some n => n
                   | None => Networks_defaultNetwork
                   end;
        type := match type with
                | Some t => t
                | None => PayToPublicKeyHash
                end |}.
Proof. apply Address_of_hash. Qed.

Lemma Address_of_other_length (bytes : list Z) (network : option NetArg)
  (type : option string) :
  List.length bytes <> 20%nat -> List.length bytes <> 21%nat ->
  network_argument_ok network -> type_argument_ok type ->
  Address_new (DBuffer bytes) network type =
  Throw (InvalidArgument "Must provide a `hash` or `hashBuffer` property").
Proof.
  intros L20 L21 Hn Ht. rewrite Address_new_not_array by discriminate.
  unfold Address_of. cbn [Data_truthy checkArgument bind].
  rewrite (network_argument_ok_test _ Hn), (type_argument_ok_test _ Ht).
  unfold _classifyArguments.
  destruct (Nat.eqb_spec (List.length bytes) 20); [contradiction|].
  destruct (Nat.eqb_spec (List.length bytes) 21); [contradiction|].
  reflexivity.
Qed.

(** X12. A buffer of another length than 20 and 21 bytes is taken for a
    record without hash: the constructor refuses it with the argument
    error of [_transformObject], not with an error about its length. *)
Theorem constructor_buffer_other_length (bytes : list Z)
  (network : option NetArg) (type : option string) :
  List.length bytes <> 20%nat -> List.length bytes <> 21%nat ->
  network_argument_ok network -> type_argument_ok type ->
  Address_new (DBuffer bytes) network type =
  Throw (InvalidArgument "Must provide a `hash` or `hashBuffer` property").
Proof. apply Address_of_other_length. Qed.

(** X13. An address made from a public key is of type pubkeyhash
    whatever the type argument says: its hash is the hash of the key, its
    network the network of the argument or the default network. *)
Theorem constructor_public_key (pubkey : PublicKey) (network : option NetArg)
  (type : option string) :
  network_argument_ok network -> type_argument_ok type ->
  Address_new (DPublicKey pubkey) network type =
  OK {| hashBuffer := Hash_sha256ripemd160 (pubkey_buffer pubkey);
        network := match Networks_get_opt network with
                   | Some n => n
                   | None => Networks_defaultNetwork
                   end;
        type := PayToPublicKeyHash |}.
Proof.
  intros Hn Ht. rewrite Address_new_not_array by discriminate.
  unfold Address_of. cbn [Data_truthy checkArgument bind].
  rewrite (network_argument_ok_test _ Hn), (type_argument_ok_test _ Ht).
  reflexivity.
Qed.

(** X14. [fromBuffer] of [toBuffer]: the address that comes back has the
    hash of the address, and the network and the type that the registry
    gives for its version byte; it is the address itself when these are
    its own. *)
Theorem fromBuffer_toBuffer (a : Address) (n : Network) (ty : string) :
  List.length (hashBuffer a) = 20%nat ->
  _classifyFromVersion (toBuffer a) = (Some n, Some ty) ->
  Networks_get (NetObj n) = Some n ->
  fromBuffer (toBuffer a) None None =
  OK {| hashBuffer := hashBuffer a; network := n; type := ty |}.
Proof.
  intros L C G. unfold fromBuffer, _transformBuffer.
  assert (L21 : List.length (toBuffer a) = 21%nat)
    by (unfold toBuffer; cbn [List.length app]; lia).
  rewrite L21, C. cbn [Nat.add Nat.eqb negb opt_truthy bind fst snd].
  cbn [info_hashBuffer info_network info_type option_map].
  assert (T : type_argument_ok (Some ty)).
  { unfold _classifyFromVersion in C.
    destruct (match hd_error (toBuffer a) with
              | Some b => Networks_get_key b key_prefix_pubkeyhash
              | None => None
              end);
      [|destruct (match hd_error (toBuffer a) with
                  | Some b => Networks_get_key b key_prefix_scripthash
                  | None => None
                  end)];
      inversion C; unfold type_argument_ok; auto. }
  rewrite Address_of_hash; [|exact L| |exact T].
  - cbn [Networks_get_opt]. rewrite G. reflexivity.
  - intros _. cbn [Networks_get_opt]. rewrite G. discriminate.
Qed.

Lemma fromScriptHash_OK (hash : list Z) (network : option NetArg) (a : Address) :
  fromScriptHash hash network = OK a ->
  hashBuffer a = hash /\ List.length hash = 20%nat /\ type a = PayToScriptHash.
Proof.
  unfold fromScriptHash, _transformHash.
  destruct (Nat.eqb_spec (List.length hash) 20) as [L|]; [|discriminate].
  cbn [negb bind info_hashBuffer]. unfold Address_of.
  cbn [Data_truthy checkArgument bind].
  destruct (opt_truthy NetArg_truthy network &&
            negb (opt_truthy (fun _ => true) (Networks_get_opt network)));
    [discriminate|].
  cbn [opt_truthy JS.truthy PayToScriptHash andb negb String.eqb Ascii.eqb
       PayToPublicKeyHash Bool.eqb].
  unfold _classifyArguments, _transformHash. rewrite L. cbn [Nat.eqb negb bind].
  intros E. inversion E. auto.
Qed.

(** X15. [createMultisig] never returns anything but an address of type
    scripthash whose hash is the 20-byte hash of the multisig script; and
    it throws when it is given no network and no public key. *)
Theorem createMultisig_script_hash (publicKeys : list PublicKey)
  (threshold : Z) (network : option NetArg) :
  (forall a,
      createMultisig publicKeys threshold network = OK a ->
      type a = PayToScriptHash /\ List.length (hashBuffer a) = 20%nat /\
      exists script,
        Script_buildMultisigOut publicKeys threshold = OK script /\
        hashBuffer a = Hash_sha256ripemd160 (script_buffer script)) /\
  (opt_truthy NetArg_truthy network = false -> publicKeys = [] ->
   exists message,
     createMultisig publicKeys threshold network = Throw (TypeError message)).
Proof.
  split.
  - intros a H. unfold createMultisig in H.
    apply bind_OK in H. destruct H as (network' & _ & H).
    apply bind_OK in H. destruct H as (script & B & H).
    unfold payingTo in H. apply fromScriptHash_OK in H.
    destruct H as (E & L & T). rewrite E. eauto.
  - intros F ->. unfold createMultisig. rewrite F. eexists. reflexivity.
Qed.

Lemma Address_of_object (obj : ObjectData) (hash : list Z) (t : string) :
  data_hash obj = None -> data_hashBuffer obj = Some hash ->
  data_type obj = Some t -> JS.truthy t = true ->
  Address_new (DObject obj) None None =
  OK {| hashBuffer := hash;
        network := match Networks_get_opt (data_network obj) with
                   | Some n => n
                   | None => Networks_defaultNetwork
                   end;
        type := t |}.
Proof.
  intros H1 H2 H3 Tt. unfold Address_new, Address_of.
  cbn [Data_truthy checkArgument bind opt_truthy andb].
  unfold _classifyArguments, _transformObject. rewrite H1, H2, H3.
  cbn [opt_truthy orb]. rewrite Tt. cbn [checkArgument bind].
  cbn [info_network info_type info_hashBuffer or_network].
  unfold or_string. cbn [opt_truthy]. rewrite Tt. cbn iota. rewrite Tt.
  reflexivity.
Qed.

(** X16. The constructor does not check the type of a record: a record
    with a hash buffer and any non-empty type that is neither pubkeyhash
    nor scripthash gives an address, and [toCashAddress] of that address
    throws "Invalid type". *)
Theorem record_type_unchecked (obj : ObjectData) (hash : list Z) (t : string)
  (stripProtocol : bool) :
  data_hash obj = None -> data_hashBuffer obj = Some hash ->
  data_type obj = Some t -> JS.truthy t = true ->
  t <> PayToPublicKeyHash -> t <> PayToScriptHash ->
  exists a,
    Address_new (DObject obj) None None = OK a /\
    hashBuffer a = hash /\ type a = t /\
    toCashAddress a stripProtocol = Throw (Error ("Invalid type:" ++ t)).
Proof.
  intros H1 H2 H3 Tt N1 N2. eexists. split; [|split; [|split]].
  - apply Address_of_object; eassumption.
  - reflexivity.
  - reflexivity.
  - unfold toCashAddress, getTypeBits. cbn [type].
    destruct (String.eqb_spec t "pubkeyhash"); [contradiction|].
    destruct (String.eqb_spec t "scripthash"); [contradiction|].
    reflexivity.
Qed.

(** X17. The record that [toObject] returns gives the address back: for
    an address with a non-empty hash and a non-empty type, whose network
    the registry finds under its name, when the collaborating hex decoder
    inverts [toString('hex')] on the hash. *)
Theorem constructor_toObject (a : Address) :
  hashBuffer a <> [] -> JS.truthy (type a) = true ->
  Networks_get (NetStr (name (network a))) = Some (network a) ->
  Buffer_from_hex (toString_hex (hashBuffer a)) = hashBuffer a ->
  Address_new (DObject (toObject a)) None None = OK a.
Proof.
  intros Hh Tt G Hex. unfold Address_new, Address_of.
  cbn [Data_truthy checkArgument bind opt_truthy andb].
  unfold _classifyArguments, _transformObject, toObject.
  cbn [data_hash data_hashBuffer data_type data_network opt_truthy].
  assert (Th : JS.truthy (toString_hex (hashBuffer a)) = true).
  { destruct (hashBuffer a); [contradiction|reflexivity]. }
  rewrite Th, Tt. cbn [orb checkArgument bind].
  cbn [info_network info_type info_hashBuffer or_network Networks_get_opt].
  rewrite G, Hex. unfold or_string. cbn [opt_truthy]. rewrite Tt. cbn iota.
  rewrite Tt. destruct a. reflexivity.
Qed.

End ClassifierMore.

Lemma append_length (a b : string) :
  String.length (a ++ b) = (String.length a + String.length b)%nat.
Proof. induction a; cbn; congruence. Qed.

Section Texts.

Context {registry : Registry} {collaborators : Collaborators}.

(** What [_transformString] does with the text of an address, for every
    network and type argument. *)
Lemma transformString_encoded (hash : list Z) (ty : string) (net : Network) :
  In (List.length hash) hash_lengths -> Forall byte hash ->
  ty = PayToPublicKeyHash \/ ty = PayToScriptHash ->
  registered net -> JS.trimStart (protocol net) = protocol net ->
  exists text,
    toCashAddress {| hashBuffer := hash; network := net; type := ty |} false
    = OK text /\
    JS.truthy text = true /\
    forall network type,
      _transformString text network type =
      if opt_truthy NetArg_truthy network &&
         negb (opt_truthy (fun _ => true) (Networks_get_opt network))
      then Throw (TypeError "Unknown network")
      else if opt_truthy (fun n => negb (String.eqb (name n) (name net)))
                (Networks_get_opt network)
      then Throw (TypeError "Address has mismatched network type.")
      else if opt_truthy (fun t => JS.truthy t && negb (String.eqb t ty)) type
      then Throw (TypeError "Address has mismatched type.")
      else OK {| info_hashBuffer := hash; info_network := Some net;
                 info_type := Some ty |}.
Proof.
  intros Hlen Hbytes Hty [Hwf Hget] Htrim.
  destruct (protocol_wellformed_facts _ Hwf) as (Tp & Lp & Cp).
  destruct (toCashAddress_stages_sized hash ty net Hlen Hbytes Hty)
    as (vb & symbols & digits & body & Gt & Gs & _ & Hc & Ld & _ & Hv & Hd
        & Lb & Cb & Lsym & He).
  set (text := (protocol net ++ String ":" body)%string).
  exists text. split; [apply (He false)|].
  assert (Hbody : String.length body = (List.length symbols + 8)%nat).
  { rewrite <- (Base32_decode_length _ _ Hd), length_app, Ld. reflexivity. }
  assert (L20 : (20 <= List.length hash)%nat).
  { unfold hash_lengths in Hlen. cbn [In] in Hlen.
    repeat (destruct Hlen as [Hlen|Hlen]; [lia|]). destruct Hlen. }
  assert (Ltext : (43 <= String.length text)%nat).
  { subst text. rewrite append_length. cbn [String.length].
    destruct (protocol net); [discriminate Tp|]. cbn [String.length]. lia. }
  assert (Ttext : JS.trim text = text).
  { unfold JS.trim. subst text.
    destruct (protocol net) as [|c p] eqn:P; [discriminate Tp|].
    apply trimStart_fixed in Htrim.
    cbn [append JS.trimStart]. rewrite Htrim.
    change (String c (p ++ String ":" body)%string)
      with (String c p ++ String ":" EmptyString ++ body)%string.
    rewrite <- append_assoc. apply trimEnd_app.
    - intros E. rewrite E in Hbody. cbn in Hbody. lia.
    - apply trimEnd_space_free. eapply Base32_decode_space_free. eassumption. }
  split.
  { subst text. destruct (protocol net); [discriminate Tp|reflexivity]. }
  intros network type. unfold _transformString.
  destruct (Nat.ltb_spec (String.length text) 34); [lia|].
  rewrite Ttext.
  destruct (opt_truthy NetArg_truthy network &&
            negb (opt_truthy (fun _ => true) (Networks_get_opt network)));
    [reflexivity|].
  destruct (Nat.ltb_spec 35 (String.length text)); [|lia].
  subst text.
  rewrite decodeCashAddress_prefixed, Hd by assumption.
  cbn [bind]. unfold decode_checksum. cbn [opt_truthy].
  rewrite Tp, Hv. cbn [checkArgument bind].
  rewrite (decode_payload_sized _ _ hash symbols digits vb ty) by assumption.
  rewrite Hget. cbn [bind info_network info_type].
  destruct (opt_truthy (fun n => negb (String.eqb (name n) (name net)))
              (Networks_get_opt network)); [reflexivity|].
  assert (Tty : JS.truthy ty = true) by (destruct Hty as [-> | ->]; reflexivity).
  rewrite Tty. cbn [andb].
  destruct (opt_truthy (fun t => JS.truthy t && negb (String.eqb t ty)) type);
    reflexivity.
Qed.

(** X18. [fromString] of the text of an address with a 20-byte hash is
    the address: without arguments, and with a network argument of the
    name of its network and a type argument equal to its type. *)
Theorem fromString_toCashAddress (hash : list Z) (ty : string) (net : Network)
  (network : option NetArg) (type : option string) :
  List.length hash = 20%nat -> Forall byte hash ->
  ty = PayToPublicKeyHash \/ ty = PayToScriptHash ->
  registered net -> JS.trimStart (protocol net) = protocol net ->
  Networks_get (NetObj net) = Some net ->
  network_argument_ok network ->
  opt_truthy (fun n => negb (String.eqb (name n) (name net)))
    (Networks_get_opt network) = false ->
  type = None \/ type = Some ty ->
  exists text,
    toCashAddress {| hashBuffer := hash; network := net; type := ty |} false
    = OK text /\
    fromString text network type =
    OK {| hashBuffer := hash; network := net; type := ty |}.
Proof.
  intros L Hbytes Hty Hreg Htrim Gobj Hnet Hname Htype.
  destruct (transformString_encoded hash ty net) as (text & He & _ & Ht);
    try assumption.
  { rewrite L. unfold hash_lengths. cbn. auto. }
  exists text. split; [exact He|].
  unfold fromString. rewrite Ht, (network_argument_ok_test _ Hnet), Hname.
  assert (Tm : opt_truthy (fun t => JS.truthy t && negb (String.eqb t ty)) type = false).
  { destruct Htype as [-> | ->]; [reflexivity|].
    cbn [opt_truthy]. rewrite String.eqb_refl. apply andb_false_r. }
  rewrite Tm. cbn [bind info_hashBuffer info_network info_type option_map].
  rewrite Address_of_hash.
  - cbn [Networks_get_opt]. rewrite Gobj. reflexivity.
  - exact L.
  - intros _. cbn [Networks_get_opt]. rewrite Gobj. discriminate.
  - unfold type_argument_ok. destruct Hty as [-> | ->]; auto.
Qed.

(** X19. The text of an address with a hash of 24, 28, 32, 40, 48, 56 or
    64 bytes is accepted by the constructor, which returns the address,
    and refused by [fromString], which hands the decoded hash to the
    constructor as a buffer of a length it does not know. *)
Theorem fromString_other_sizes (hash : list Z) (ty : string) (net : Network) :
  In (List.length hash) hash_lengths -> List.length hash <> 20%nat ->
  Forall byte hash ->
  ty = PayToPublicKeyHash \/ ty = PayToScriptHash ->
  registered net -> JS.trimStart (protocol net) = protocol net ->
  Networks_get (NetObj net) = Some net ->
  exists text,
    toCashAddress {| hashBuffer := hash; network := net; type := ty |} false
    = OK text /\
    Address_new (DString text) None None =
    OK {| hashBuffer := hash; network := net; type := ty |} /\
    fromString text None None =
    Throw (InvalidArgument "Must provide a `hash` or `hashBuffer` property").
Proof.
  intros Hlen L20 Hbytes Hty Hreg Htrim Gobj.
  destruct (transformString_encoded hash ty net) as (text & He & Tt & Ht);
    try assumption.
  exists text. split; [exact He|]. split.
  - unfold Address_new, Address_of. cbn [Data_truthy]. rewrite Tt.
    cbn [checkArgument bind opt_truthy andb].
    unfold _classifyArguments. rewrite Ht.
    cbn [opt_truthy Networks_get_opt andb bind info_network info_type
         info_hashBuffer or_network].
    unfold or_string. cbn [opt_truthy].
    destruct Hty as [-> | ->]; reflexivity.
  - unfold fromString. rewrite Ht.
    cbn [opt_truthy Networks_get_opt andb bind info_network info_type
         info_hashBuffer option_map].
    apply Address_of_other_length.
    + exact L20.
    + unfold hash_lengths in Hlen. cbn [In] in Hlen.
      repeat (destruct Hlen as [Hlen|Hlen]; [lia|]). destruct Hlen.
    + intros _. cbn [Networks_get_opt]. rewrite Gobj. discriminate.
    + unfold type_argument_ok. destruct Hty as [-> | ->]; auto.
Qed.

(** X20. [isValid] of the text of an address is true exactly when the
    network argument, if it names a network, names one of the name of the
    network of the address, and the type argument, if there is one, is
    the type of the address. *)
Theorem isValid_encoded (hash : list Z) (ty : string) (net : Network)
  (network : option NetArg) (type : option string) :
  In (List.length hash) hash_lengths -> Forall byte hash ->
  ty = PayToPublicKeyHash \/ ty = PayToScriptHash ->
  registered net -> JS.trimStart (protocol net) = protocol net ->
  network_argument_ok network -> type_argument_ok type ->
  exists text,
    toCashAddress {| hashBuffer := hash; network := net; type := ty |} false
    = OK text /\
    isValid (DString text) network type =
    negb (opt_truthy (fun n => negb (String.eqb (name n) (name net)))
            (Networks_get_opt network)) &&
    negb (opt_truthy (fun t => negb (String.eqb t ty)) type).
Proof.
  intros Hlen Hbytes Hty Hreg Htrim Hnet Htype.
  destruct (transformString_encoded hash ty net) as (text & He & Tt & Ht);
    try assumption.
  exists text. split; [exact He|].
  unfold isValid, getValidationError.
  rewrite Address_new_not_array by discriminate.
  unfold Address_of. cbn [Data_truthy]. rewrite Tt.
  cbn [checkArgument bind].
  rewrite (network_argument_ok_test _ Hnet), (type_argument_ok_test _ Htype).
  unfold _classifyArguments. rewrite Ht, (network_argument_ok_test _ Hnet).
  destruct (opt_truthy (fun n => negb (String.eqb (name n) (name net)))
              (Networks_get_opt network)); [reflexivity|].
  cbn [negb andb].
  destruct Htype as [->|[->| ->]]; destruct Hty as [-> | ->]; reflexivity.
Qed.

End Texts.

Section HashFactories.

Context {registry : Registry} {collaborators : Collaborators}.

(** X21. [fromPublicKeyHash] and [fromScriptHash] return, for a hash of
    20 bytes, the address of that hash, of the network of the argument or
    the default network, and of type pubkeyhash and scripthash; for a
    hash of another length both throw the error about the 20 bytes. *)
Theorem hash_factories (hash : list Z) (network : option NetArg) :
  network_argument_ok network ->
  (List.length hash = 20%nat ->
   fromPublicKeyHash hash network =
   OK {| hashBuffer := hash;
         network := match Networks_get_opt network with
                    | Some n => n
                    | None => Networks_defaultNetwork
                    end;
         type := PayToPublicKeyHash |} /\
   fromScriptHash hash network =
   OK {| hashBuffer := hash;
         network := match Networks_get_opt network with
                    | Some n => n
                    | None => Networks_defaultNetwork
                    end;
         type := PayToScriptHash |}) /\
  (List.length hash <> 20%nat ->
   fromPublicKeyHash hash network =
   Throw (TypeError "Address hashbuffers must be exactly 20 bytes.") /\
   fromScriptHash hash network =
   Throw (TypeError "Address hashbuffers must be exactly 20 bytes.")).
Proof.
  intros Hn. unfold fromPublicKeyHash, fromScriptHash, _transformHash. split.
  - intros L. rewrite L. cbn [Nat.eqb negb bind info_hashBuffer]. split.
    + apply Address_of_hash; [exact L|exact Hn|]. unfold type_argument_ok. auto.
    + rewrite <- (Address_new_not_array (DBuffer hash)) by discriminate.
      apply Address_of_hash; [exact L|exact Hn|]. unfold type_argument_ok. auto.
  - intros L. destruct (Nat.eqb_spec (List.length hash) 20); [contradiction|].
    split; reflexivity.
Qed.

End HashFactories.

(** X22. The decoder does not look at the top bit of the version byte: a
    version byte with that bit set announces the hash size, and the type,
    of the byte without it. *)
Theorem version_byte_top_bit (versionByte : Z) (ty : string) :
  0 <= versionByte < 128 ->
  getType (Some versionByte) = OK ty ->
  getType (Some (versionByte + 128)) = OK ty /\
  getHashSize (Some (versionByte + 128)) = getHashSize (Some versionByte).
Proof.
  intros R.
  pose proof (range_forallb
    (fun v =>
       match getType (Some v), getType (Some (v + 128)) with
       | OK t, OK t' => String.eqb t t'
       | OK _, Throw _ => false
       | Throw _, _ => true
       end &&
       match getHashSize (Some (v + 128)), getHashSize (Some v) with
       | Some s, Some s' => s =? s'
       | None, None => true
       | _, _ => false
       end) 128 eq_refl versionByte R) as F.
  cbv beta in F. apply andb_true_iff in F. destruct F as [F1 F2].
  intros T. rewrite T in F1. split.
  - destruct (getType (Some (versionByte + 128))) as [t'|]; [|discriminate].
    apply String.eqb_eq in F1. congruence.
  - destruct (getHashSize (Some (versionByte + 128))) as [s|],
             (getHashSize (Some versionByte)) as [s'|];
      try discriminate; [|reflexivity].
    apply Z.eqb_eq in F2. congruence.
Qed.

(** * The further properties on the example registry *)

Lemma polymod_range_witness : 0 <= polymod [1; 2; 3] < 2 ^ 40.
Proof.
  apply (polymod_range [1; 2; 3]).
  repeat constructor; discriminate.
Defined.

Lemma polymod_checksum_unique_witness :
  polymod ([2; 9; 20; 3; 15; 9; 14; 3; 1; 19; 8; 0] ++
           checksumToArray
             (polymod ([2; 9; 20; 3; 15; 9; 14; 3; 1; 19; 8; 0] ++
                       [0; 0; 0; 0; 0; 0; 0; 0]))) = 0.
Proof.
  apply (proj2 (polymod_checksum_unique
                  [2; 9; 20; 3; 15; 9; 14; 3; 1; 19; 8; 0]
                  (checksumToArray
                     (polymod ([2; 9; 20; 3; 15; 9; 14; 3; 1; 19; 8; 0] ++
                               [0; 0; 0; 0; 0; 0; 0; 0])))
                  ltac:(repeat constructor; discriminate)
                  ltac:(vm_compute; repeat constructor; discriminate)
                  eq_refl)).
  reflexivity.
Defined.

Lemma version_byte_roundtrip_witness :
  getType (Some (8 + 3)) = OK PayToScriptHash /\
  getHashSize (Some (8 + 3)) = Some (Z.of_nat (List.length (repeat 0 32)) * 8).
Proof.
  apply (version_byte_roundtrip PayToScriptHash (repeat 0 32) 8 3);
    reflexivity.
Defined.

Lemma byte_sample_hash : Forall byte sample_hash.
Proof. repeat constructor; discriminate. Defined.

Lemma toCashAddress_outcome_witness :
  toCashAddress {| hashBuffer := sample_hash; network := livenet;
                   type := "script" |} false
  = Throw (Error "Invalid type:script") /\
  toCashAddress {| hashBuffer := [1; 2; 3]; network := livenet;
                   type := PayToScriptHash |} false
  = Throw (Error "Invalid hash size:3") /\
  exists text,
    toCashAddress {| hashBuffer := sample_hash; network := livenet;
                     type := PayToScriptHash |} true = OK text.
Proof.
  split; [|split].
  - apply (proj1 (toCashAddress_outcome
                    {| hashBuffer := sample_hash; network := livenet;
                       type := "script" |} false)); discriminate.
  - apply (proj1 (proj2 (toCashAddress_outcome
                    {| hashBuffer := [1; 2; 3]; network := livenet;
                       type := PayToScriptHash |} false))).
    + right. reflexivity.
    + cbn. intros H. repeat (destruct H as [H|H]; [discriminate H|]). exact H.
  - apply (proj2 (proj2 (toCashAddress_outcome
                    {| hashBuffer := sample_hash; network := livenet;
                       type := PayToScriptHash |} true))).
    + right. reflexivity.
    + left. reflexivity.
    + exact byte_sample_hash.
Defined.

Lemma byte_zeros (n : nat) : Forall byte (repeat 0 n).
Proof.
  induction n as [|n IH]; cbn [repeat]; [constructor|].
  constructor; [unfold byte; lia|exact IH].
Defined.

Lemma cashaddr_roundtrip_sizes_witness :
  exists text,
    toCashAddress {| hashBuffer := repeat 0 32; network := testnet;
                     type := PayToScriptHash |} false = OK text /\
    @decodeCashAddress example_registry text =
    OK {| info_hashBuffer := repeat 0 32; info_network := Some testnet;
          info_type := Some PayToScriptHash |}.
Proof.
  apply (@cashaddr_roundtrip_sizes example_registry (repeat 0 32)
           PayToScriptHash testnet).
  - cbn. tauto.
  - apply byte_zeros.
  - right. reflexivity.
  - split; reflexivity.
Defined.

Lemma cashaddr_roundtrip_stripped_witness :
  exists text,
    toCashAddress {| hashBuffer := sample_hash; network := regtest;
                     type := PayToPublicKeyHash |} true = OK text /\
    @decodeCashAddress example_registry text =
    OK {| info_hashBuffer := sample_hash; info_network := Some regtest;
          info_type := Some PayToPublicKeyHash |}.
Proof.
  apply (@cashaddr_roundtrip_stripped example_registry livenet testnet regtest
           sample_hash PayToPublicKeyHash regtest
           eq_refl eq_refl eq_refl eq_refl eq_refl eq_refl).
  - right. right. left. reflexivity.
  - intros m [<-|[<-|[<-|[]]]].
    + right. vm_compute. discriminate.
    + right. vm_compute. discriminate.
    + left. reflexivity.
  - reflexivity.
  - left. reflexivity.
  - apply byte_sample_hash.
  - left. reflexivity.
Defined.

Lemma decodeCashAddress_wellformed_witness :
  In (List.length zero_hash) hash_lengths /\ Forall byte zero_hash /\
  (Some PayToPublicKeyHash = Some PayToPublicKeyHash \/
   Some PayToPublicKeyHash = Some PayToScriptHash).
Proof.
  apply (@decodeCashAddress_wellformed example_registry
           "bitcoincash:qqqqqqqqqqqqqqqqqqqqqqqqqqqqqqqqqqfnhks603"
           {| info_hashBuffer := zero_hash; info_network := Some livenet;
              info_type := Some PayToPublicKeyHash |}).
  vm_compute. reflexivity.
Defined.

Lemma decodeCashAddress_colons_witness :
  @decodeCashAddress example_registry "BCH:BITCOINCASH:QQ"
  = Throw (InvalidArgument "Invalid format:bch:bitcoincash:qq").
Proof.
  apply (@decodeCashAddress_colons example_registry "BCH:BITCOINCASH:QQ").
  - reflexivity.
  - cbn. lia.
Defined.

Lemma network_ok_absent : @network_argument_ok example_registry None.
Proof. intros H. discriminate H. Defined.

Lemma network_ok_testnet :
  @network_argument_ok example_registry (Some (NetStr "testnet")).
Proof. intros _. discriminate. Defined.

Lemma constructor_raw_hash_witness :
  @Address_new example_registry example_collaborators (DBuffer sample_hash)
    (Some (NetStr "testnet")) (Some PayToScriptHash)
  = OK {| hashBuffer := sample_hash; network := testnet;
          type := PayToScriptHash |}.
Proof.
  apply (@constructor_raw_hash example_registry example_collaborators
           sample_hash (Some (NetStr "testnet")) (Some PayToScriptHash)).
  - reflexivity.
  - apply network_ok_testnet.
  - right. right. reflexivity.
Defined.

Lemma constructor_buffer_other_length_witness :
  @Address_new example_registry example_collaborators (DBuffer (repeat 0 19))
    None None
  = Throw (InvalidArgument "Must provide a `hash` or `hashBuffer` property").
Proof.
  apply (@constructor_buffer_other_length example_registry example_collaborators
           (repeat 0 19) None None).
  - discriminate.
  - discriminate.
  - apply network_ok_absent.
  - left. reflexivity.
Defined.

Lemma constructor_public_key_witness :
  @Address_new example_registry hex_collaborators
    (DPublicKey {| pubkey_buffer := [2; 1]; pubkey_network := None |})
    (Some (NetStr "testnet")) (Some PayToScriptHash)
  = OK {| hashBuffer := repeat 7 20; network := testnet;
          type := PayToPublicKeyHash |}.
Proof.
  apply (@constructor_public_key example_registry hex_collaborators
           {| pubkey_buffer := [2; 1]; pubkey_network := None |}
           (Some (NetStr "testnet")) (Some PayToScriptHash)).
  - apply network_ok_testnet.
  - right. right. reflexivity.
Defined.

(** The registry of the examples gives testnet for the version byte that
    testnet and regtest share: the buffer of a regtest address comes back
    as a testnet address. *)
Lemma fromBuffer_toBuffer_witness :
  @fromBuffer example_registry example_collaborators
    (toBuffer {| hashBuffer := sample_hash; network := regtest;
                 type := PayToPublicKeyHash |}) None None
  = OK {| hashBuffer := sample_hash; network := testnet;
          type := PayToPublicKeyHash |}.
Proof.
  apply (@fromBuffer_toBuffer example_registry example_collaborators
           {| hashBuffer := sample_hash; network := regtest;
              type := PayToPublicKeyHash |} testnet PayToPublicKeyHash);
    reflexivity.
Defined.

Lemma createMultisig_script_hash_witness :
  (exists script,
      @Script_buildMultisigOut hex_collaborators [] 2 = OK script /\
      repeat 7 20 = @Hash_sha256ripemd160 hex_collaborators (script_buffer script)) /\
  exists message,
    @createMultisig example_registry hex_collaborators [] 2 None
    = Throw (TypeError message).
Proof.
  split.
  - apply (proj1 (@createMultisig_script_hash example_registry hex_collaborators
                    [] 2 (Some (NetStr "livenet")))
             {| hashBuffer := repeat 7 20; network := livenet;
                type := PayToScriptHash |}).
    reflexivity.
  - apply (proj2 (@createMultisig_script_hash example_registry hex_collaborators
                    [] 2 None)); reflexivity.
Defined.

Lemma record_type_unchecked_witness :
  exists a,
    @Address_new example_registry example_collaborators
      (DObject {| data_hash := None; data_hashBuffer := Some [1; 2; 3];
                  data_type := Some "script"; data_network := None |})
      None None = OK a /\
    hashBuffer a = [1; 2; 3] /\ type a = "script" /\
    toCashAddress a false = Throw (Error "Invalid type:script").
Proof.
  apply (@record_type_unchecked example_registry example_collaborators
           {| data_hash := None; data_hashBuffer := Some [1; 2; 3];
              data_type := Some "script"; data_network := None |}
           [1; 2; 3] "script" false);
    try reflexivity; discriminate.
Defined.

Lemma constructor_toObject_witness :
  @Address_new example_registry hex_collaborators
    (DObject (toObject {| hashBuffer := sample_hash; network := testnet;
                          type := PayToScriptHash |})) None None
  = OK {| hashBuffer := sample_hash; network := testnet;
          type := PayToScriptHash |}.
Proof.
  apply (@constructor_toObject example_registry hex_collaborators
           {| hashBuffer := sample_hash; network := testnet;
              type := PayToScriptHash |}).
  - discriminate.
  - reflexivity.
  - reflexivity.
  - vm_compute. reflexivity.
Defined.

Lemma fromString_toCashAddress_witness :
  exists text,
    toCashAddress {| hashBuffer := sample_hash; network := testnet;
                     type := PayToScriptHash |} false = OK text /\
    @fromString example_registry example_collaborators text
      (Some (NetStr "bchtest")) (Some PayToScriptHash)
    = OK {| hashBuffer := sample_hash; network := testnet;
            type := PayToScriptHash |}.
Proof.
  apply (@fromString_toCashAddress example_registry example_collaborators
           sample_hash PayToScriptHash testnet
           (Some (NetStr "bchtest")) (Some PayToScriptHash)).
  - reflexivity.
  - apply byte_sample_hash.
  - right. reflexivity.
  - split; reflexivity.
  - reflexivity.
  - reflexivity.
  - intros _. discriminate.
  - reflexivity.
  - right. reflexivity.
Defined.

Lemma fromString_other_sizes_witness :
  exists text,
    toCashAddress {| hashBuffer := repeat 0 32; network := livenet;
                     type := PayToPublicKeyHash |} false = OK text /\
    @Address_new example_registry example_collaborators (DString text) None None
    = OK {| hashBuffer := repeat 0 32; network := livenet;
            type := PayToPublicKeyHash |} /\
    @fromString example_registry example_collaborators text None None
    = Throw (InvalidArgument "Must provide a `hash` or `hashBuffer` property").
Proof.
  apply (@fromString_other_sizes example_registry example_collaborators
           (repeat 0 32) PayToPublicKeyHash livenet).
  - cbn. tauto.
  - discriminate.
  - apply byte_zeros.
  - left. reflexivity.
  - split; reflexivity.
  - reflexivity.
  - reflexivity.
Defined.

Lemma isValid_encoded_witness :
  exists text,
    toCashAddress {| hashBuffer := sample_hash; network := livenet;
                     type := PayToPublicKeyHash |} false = OK text /\
    @isValid example_registry example_collaborators (DString text)
      (Some (NetStr "testnet")) None = false.
Proof.
  apply (@isValid_encoded example_registry example_collaborators
           sample_hash PayToPublicKeyHash livenet
           (Some (NetStr "testnet")) None).
  - cbn. tauto.
  - apply byte_sample_hash.
  - left. reflexivity.
  - split; reflexivity.
  - reflexivity.
  - apply network_ok_testnet.
  - left. reflexivity.
Defined.

Lemma hash_factories_witness :
  @fromPublicKeyHash example_registry example_collaborators (repeat 0 19) None
  = Throw (TypeError "Address hashbuffers must be exactly 20 bytes.") /\
  @fromScriptHash example_registry example_collaborators (repeat 0 19) None
  = Throw (TypeError "Address hashbuffers must be exactly 20 bytes.").
Proof.
  apply (proj2 (@hash_factories example_registry example_collaborators
                  (repeat 0 19) None network_ok_absent)).
  discriminate.
Defined.

Lemma version_byte_top_bit_witness :
  getType (Some (8 + 128)) = OK PayToScriptHash /\
  getHashSize (Some (8 + 128)) = getHashSize (Some 8).
Proof.
  apply (version_byte_top_bit 8 PayToScriptHash); [lia|reflexivity].
Defined.
